(** * HA Voice plugin: the command interpreter of [src/main.ts]

    A shallow embedding of the request listener, [handleCommand] and the note
    helpers of [HAVoicePlugin], and the properties of its specification.

    Strings are JavaScript strings restricted to code units below 256: an
    [ascii] is the code unit U+0000..U+00FF.  On that range [toLowerCase],
    [trim], [\s] and [.] are the functions written out below. *)

From Stdlib Require Import String Ascii List Bool Arith Lia.
From Stdlib Require Import Floats.SpecFloat.
From Stdlib Require Import ZArith.
From Stdlib Require Decimal DecimalFacts DecimalString DecimalNat.
Import ListNotations.
Open Scope string_scope.
Open Scope bool_scope.
Open Scope nat_scope.
Set Warnings "-register-all".

(* ================================================================== *)
(** ** JavaScript strings *)

Module JsString.

Definition code (c : ascii) : nat := nat_of_ascii c.

(** [String.prototype.toLowerCase] on one code unit: A-Z and the Latin-1
    capitals U+00C0..U+00DE (but the multiplication sign U+00D7).  Below
    U+0100 the function maps every code unit on its own; above, it does not
    (a capital sigma at the end of a word, see [Wide]). *)
Definition lower_char (c : ascii) : ascii :=
  let n := code c in
  if ((65 <=? n) && (n <=? 90)) || ((192 <=? n) && (n <=? 222) && negb (n =? 215))
  then ascii_of_nat (n + 32) else c.

(** The uppercase form that the [i] flag compares (Canonicalize): a-z and
    U+00E0..U+00FE (but the division sign U+00F7).  The uppercase forms of
    U+00B5 and U+00FF lie above U+00FF, so those two only equal themselves. *)
Definition upper_char (c : ascii) : ascii :=
  let n := code c in
  if ((97 <=? n) && (n <=? 122)) || ((224 <=? n) && (n <=? 254) && negb (n =? 247))
  then ascii_of_nat (n - 32) else c.

Fixpoint toLowerCase (s : string) : string :=
  match s with
  | EmptyString => EmptyString
  | String c s' => String (lower_char c) (toLowerCase s')
  end.

(** WhiteSpace and LineTerminator code units below 256: TAB, LF, VT, FF, CR,
    SP and NBSP.  [trim] and the class [\s] use the same set. *)
Definition isWhiteSpace (c : ascii) : bool :=
  let n := code c in
  (n =? 9) || (n =? 10) || (n =? 11) || (n =? 12) || (n =? 13) || (n =? 32) || (n =? 160).

(** LineTerminator: LF, CR, U+2028 and U+2029, of which LF and CR are the
    code units below 256. *)
Definition isLineTerminator (c : ascii) : bool :=
  let n := code c in (n =? 10) || (n =? 13).

Fixpoint trimStart (s : string) : string :=
  match s with
  | EmptyString => EmptyString
  | String c s' => if isWhiteSpace c then trimStart s' else s
  end.

Fixpoint trimEnd (s : string) : string :=
  match s with
  | EmptyString => EmptyString
  | String c s' =>
      match trimEnd s' with
      | EmptyString => if isWhiteSpace c then EmptyString else String c EmptyString
      | r => String c r
      end
  end.

Definition trim (s : string) : string := trimStart (trimEnd s).

(** [s.startsWith(p)] *)
Definition startsWith (s p : string) : bool := String.prefix p s.

(** [s.substring(n)]: the code units from index [n] on, empty past the end. *)
Fixpoint substring (n : nat) (s : string) : string :=
  match n, s with
  | O, _ => s
  | S n', String _ s' => substring n' s'
  | S _, EmptyString => EmptyString
  end.

(** [s.includes(t)] *)
Fixpoint includes (s t : string) : bool :=
  startsWith s t ||
  match s with
  | EmptyString => false
  | String _ s' => includes s' t
  end.

(** [xs.join(sep)] *)
Definition join (sep : string) (xs : list string) : string := String.concat sep xs.

End JsString.
Import JsString.

(* ================================================================== *)
(** ** The regular expression of the append command

    [/^append to (.+?):\s*(.+)$/i], run by a backtracking matcher in
    continuation style: every pattern item takes the input that is left and
    the matcher of the rest of the pattern, and a failed continuation makes
    the item try its next alternative. *)

Module Regex.

Section Items.
Context {R : Type}.

(** the rest of the pattern, run on the rest of the input *)
Definition kont := string -> option R.

(** a literal character under the flag [i] *)
Definition ci_eqb (c p : ascii) : bool := Ascii.eqb (upper_char c) (upper_char p).

(** a run of literal characters *)
Fixpoint lit (pat : string) (s : string) (k : kont) : option R :=
  match pat with
  | EmptyString => k s
  | String p pat' =>
      match s with
      | String c s' => if ci_eqb c p then lit pat' s' k else None
      | EmptyString => None
      end
  end.

(** [.]: any code unit but a line terminator (there is no flag [s]) *)
Definition dot (c : ascii) : bool := negb (isLineTerminator c).

(** the tail of a lazy capturing [(X+?)] after [acc] was consumed: take one
    more [X], then try the continuation before taking another one *)
Fixpoint lazy_plus (X : ascii -> bool) (acc s : string)
         (k : string -> kont) : option R :=
  match s with
  | EmptyString => None
  | String c s' =>
      if X c then
        let acc' := acc ++ String c EmptyString in
        match k acc' s' with
        | Some r => Some r
        | None => lazy_plus X acc' s' k
        end
      else None
  end.

(** greedy [X*]: take another [X] first, fall back to the continuation *)
Fixpoint greedy_star (X : ascii -> bool) (s : string) (k : kont) : option R :=
  match s with
  | String c s' =>
      if X c then
        match greedy_star X s' k with
        | Some r => Some r
        | None => k s
        end
      else k s
  | EmptyString => k s
  end.

(** greedy capturing [(X* )] with [acc] consumed so far *)
Fixpoint greedy_star_cap (X : ascii -> bool) (acc s : string)
         (k : string -> kont) : option R :=
  match s with
  | String c s' =>
      if X c then
        match greedy_star_cap X (acc ++ String c EmptyString) s' k with
        | Some r => Some r
        | None => k acc s
        end
      else k acc s
  | EmptyString => k acc s
  end.

(** greedy capturing [(X+)] *)
Definition greedy_plus_cap (X : ascii -> bool) (s : string)
           (k : string -> kont) : option R :=
  match s with
  | String c s' => if X c then greedy_star_cap X (String c EmptyString) s' k else None
  | EmptyString => None
  end.

(** [$] without the flag [m]: only the end of the input *)
Definition at_end (r : R) : kont :=
  fun s => match s with EmptyString => Some r | String _ _ => None end.
End Items.

(** [$] after the second capture; [file] is the first capture. *)
Definition to_end (file : string) : string -> @kont (string * string) :=
  fun content s5 => at_end (file, content) s5.

(** [\s*(.+)$], the pattern after the colon *)
Definition after_colon (file : string) : @kont (string * string) :=
  fun s3 =>
    greedy_star isWhiteSpace s3 (fun s4 =>
      greedy_plus_cap dot s4 (to_end file)).

(** [:\s*(.+)$], the pattern after the first capture *)
Definition from_colon : string -> @kont (string * string) :=
  fun file s2 => lit ":" s2 (after_colon file).

(** [text.match(/^append to (.+?):\s*(.+)$/i)]: the captures [match[1]] and
    [match[2]], or [None] for [null].  The pattern starts with [^] and has no
    flag [m], so the only attempt that can succeed is the one at index 0. *)
Definition match_append (text : string) : option (string * string) :=
  lit "append to " text (fun s1 =>
    lazy_plus dot EmptyString s1 from_colon).

End Regex.
Import Regex.

(* ================================================================== *)
(** ** Commands and the parser

    [handleCommand] decides the command and runs it in one pass.  [parse] is
    its chain of tests (lines 62-91), with the same priority and the same
    fall-through of a failed append pattern; [execute] below is the bodies of
    its branches. *)

Inductive Command : Type :=
| CreateNote (title : string)
| AppendToNote (title content : string)
| ReadNote (title : string)
| ListNotes
| SearchNotes (term : string)
| Unknown (originalText : string).

Definition parse (text : string) : Command :=
  let lower := trim (toLowerCase text) in
  if startsWith lower "create note " then
    CreateNote (trim (substring (String.length "create note ") text))
  else
    match (if startsWith lower "append to " then match_append text else None) with
    | Some (file, content) => AppendToNote file content
    | None =>
        if startsWith lower "read note " then
          ReadNote (trim (substring (String.length "read note ") text))
        else if String.eqb lower "list notes" then ListNotes
        else if startsWith lower "search for " then
          SearchNotes (trim (substring (String.length "search for ") text))
        else Unknown text
    end.

Definition LF : string := String (ascii_of_nat 10) EmptyString.

(* ================================================================== *)
(** ** Effects: the vault as state, a rejected promise as a throw *)

Inductive exn : Type :=
| SyntaxError                 (* JSON.parse *)
| TypeError                   (* a call of something that is no function *)
| VaultError (msg : string).  (* a rejected vault operation *)

Inductive outcome (A : Type) : Type :=
| Returned (a : A)
| Thrown (e : exn).
Arguments Returned {A} a.
Arguments Thrown {A} e.

(** An [async] function over the vault state [S]: it returns or throws, and
    leaves a vault behind either way. *)
Definition M (S A : Type) : Type := S -> outcome A * S.

Definition ret {S A} (a : A) : M S A := fun st => (Returned a, st).

Definition throw {S A} (e : exn) : M S A := fun st => (Thrown e, st).

Definition bind {S A B} (m : M S A) (k : A -> M S B) : M S B :=
  fun st =>
    match m st with
    | (Returned a, st') => k a st'
    | (Thrown e, st') => (Thrown e, st')
    end.

(** [try { m } catch (e) { h e }] *)
Definition try_catch {S A} (m : M S A) (h : exn -> M S A) : M S A :=
  fun st =>
    match m st with
    | (Returned a, st') => (Returned a, st')
    | (Thrown e, st') => h e st'
    end.

Notation "x <- m ;; k" := (bind m (fun x => k))
  (at level 61, m at next level, right associativity).
Notation "m ;;; k" := (bind m (fun _ => k))
  (at level 61, right associativity).

(** The part of Obsidian's [Vault] that the plugin calls.  [TFile] is the
    handle that [getMarkdownFiles] hands out. *)
Class Vault (V TFile : Type) : Type := {
  basename : TFile -> string;
  getMarkdownFiles : V -> list TFile;
  vault_create : string -> string -> M V unit;
  vault_append : TFile -> string -> M V unit;
  vault_read : TFile -> M V string
}.

(* ================================================================== *)
(** ** The plugin: [HAVoicePlugin] *)

Section Plugin.
Context {V TFile : Type} `{Vault V TFile}.

Definition getFileByName (name : string) : M V (option TFile) :=
  fun st =>
    (Returned (find (fun f => String.eqb (basename f) name) (getMarkdownFiles st)), st).

Definition createNote (name : string) : M V unit :=
  existing <- getFileByName name ;;
  match existing with
  | Some _ => ret tt
  | None => vault_create (name ++ ".md") ""
  end.

Definition appendTo (name text : string) : M V unit :=
  file <- getFileByName name ;;
  match file with
  | None => ret tt
  | Some f => vault_append f (LF ++ text)
  end.

Definition readNote (name : string) : M V (option string) :=
  file <- getFileByName name ;;
  match file with
  | None => ret None
  | Some f => c <- vault_read f ;; ret (Some c)
  end.

(** the [for ... of] loop of [searchNotes], [results] being the array *)
Fixpoint searchLoop (term : string) (files : list TFile) (results : list string)
  : M V (list string) :=
  match files with
  | [] => ret results
  | file :: files' =>
      content <- vault_read file ;;
      searchLoop term files'
        (if includes (toLowerCase content) (toLowerCase term)
         then (results ++ [basename file])%list else results)
  end.

Definition searchNotes (term : string) : M V (list string) :=
  fun st => searchLoop term (getMarkdownFiles st) [] st.

Definition handleCommand (text : string) : M V string :=
  let lower := trim (toLowerCase text) in
  if startsWith lower "create note " then
    let title := trim (substring (String.length "create note ") text) in
    createNote title ;;;
    ret ("created note " ++ title)
  else
    match (if startsWith lower "append to " then match_append text else None) with
    | Some (file, content) =>
        appendTo file content ;;;
        ret ("appended to " ++ file)
    | None =>
        if startsWith lower "read note " then
          let title := trim (substring (String.length "read note ") text) in
          content <- readNote title ;;
          ret (match content with Some c => c | None => "note not found" end)
        else if String.eqb lower "list notes" then
          fun st => (Returned (join ", " (map basename (getMarkdownFiles st))), st)
        else if startsWith lower "search for " then
          let term := trim (substring (String.length "search for ") text) in
          matches <- searchNotes term ;;
          ret (join ", " matches)
        else ret "unknown command"
    end.

(** The bodies of the branches of [handleCommand], by command. *)
Definition execute (cmd : Command) : M V string :=
  match cmd with
  | CreateNote title => createNote title ;;; ret ("created note " ++ title)
  | AppendToNote file content => appendTo file content ;;; ret ("appended to " ++ file)
  | ReadNote title =>
      content <- readNote title ;;
      ret (match content with Some c => c | None => "note not found" end)
  | ListNotes => fun st => (Returned (join ", " (map basename (getMarkdownFiles st))), st)
  | SearchNotes term => matches <- searchNotes term ;; ret (join ", " matches)
  | Unknown _ => ret "unknown command"
  end.
End Plugin.

(* ================================================================== *)
(** ** The request listener of [startServer] *)

(** What [JSON.parse] returns. *)
Inductive JsValue : Type :=
| JNull
| JBool (b : bool)
| JNumber (x : spec_float)
| JString (s : string)
| JArray (items : list JsValue)
| JObject (props : list (string * JsValue)).

(** [ToBoolean] *)
Definition truthy (v : JsValue) : bool :=
  match v with
  | JNull => false
  | JBool b => b
  | JNumber (S754_zero _) => false
  | JNumber S754_nan => false
  | JNumber _ => true
  | JString s => negb (String.eqb s "")
  | JArray _ => true
  | JObject _ => true
  end.

(** [o.text] on the own properties of a parsed object ([None] is
    [undefined]); a parsed object lists each key once. *)
Fixpoint get_prop (key : string) (props : list (string * JsValue)) : option JsValue :=
  match props with
  | [] => None
  | (k, v) :: props' => if String.eqb k key then Some v else get_prop key props'
  end.

(** [body?.text || '']: only an object can have the property. *)
Definition text_of (body : JsValue) : JsValue :=
  match (match body with JObject props => get_prop "text" props | _ => None end) with
  | Some v => if truthy v then v else JString ""
  | None => JString ""
  end.

Definition dquote : string := String (ascii_of_nat 34) EmptyString.
Definition backslash : string := String (ascii_of_nat 92) EmptyString.

Definition hex_digit (n : nat) : ascii :=
  if n <? 10 then ascii_of_nat (48 + n) else ascii_of_nat (87 + n).

(** [JSON.stringify] of one code unit inside a string (QuoteJSONString). *)
Definition quote_char (c : ascii) : string :=
  let n := code c in
  if n =? 34 then backslash ++ dquote
  else if n =? 92 then backslash ++ backslash
  else if n =? 8 then backslash ++ "b"
  else if n =? 9 then backslash ++ "t"
  else if n =? 10 then backslash ++ "n"
  else if n =? 12 then backslash ++ "f"
  else if n =? 13 then backslash ++ "r"
  else if n <? 32 then
    backslash ++ "u00" ++ String (hex_digit (n / 16)) (String (hex_digit (n mod 16)) "")
  else String c "".

Fixpoint quote_chars (s : string) : string :=
  match s with
  | EmptyString => EmptyString
  | String c s' => quote_char c ++ quote_chars s'
  end.

Definition quote (s : string) : string := dquote ++ quote_chars s ++ dquote.

(** [JSON.stringify({ key: value })] for a string [value] *)
Definition stringify1 (key value : string) : string :=
  "{" ++ quote key ++ ":" ++ quote value ++ "}".

Record Request : Type := {
  method : string;
  url : string;
  (** [JSON.parse] of the whole body: [None] when it throws *)
  parsed : option JsValue
}.

Record Response : Type := {
  statusCode : nat;
  contentType : option string;
  written : string
}.

Section Server.
Context {V TFile : Type} `{Vault V TFile}.

Definition JSON_parse (req : Request) : M V JsValue :=
  match parsed req with
  | Some v => ret v
  | None => throw SyntaxError
  end.

(** [this.handleCommand(text)] on whatever line 43 produced: on a value
    that is no string, [text.toLowerCase()] on line 62 calls [undefined] (or
    a property that is no function). *)
Definition call_handleCommand (text : JsValue) : M V string :=
  match text with
  | JString s => handleCommand s
  | _ => throw TypeError
  end.

Definition requestListener (req : Request) : M V Response :=
  if String.eqb (method req) "POST" && String.eqb (url req) "/command" then
    try_catch
      (body <- JSON_parse req ;;
       let text := text_of body in
       result <- call_handleCommand text ;;
       ret {| statusCode := 200;
              contentType := Some "application/json";
              written := stringify1 "result" result |})
      (fun _ =>
         ret {| statusCode := 400;
                contentType := None;
                written := stringify1 "error" "bad request" |})
  else
    ret {| statusCode := 404; contentType := None; written := "" |}.
End Server.

(* ================================================================== *)
(** ** The note store

    Obsidian's vault is a collaborator of the plugin, its code is not part of
    the repository.  The store below is the one of the specification
    (sections 3 and 6). *)

(** Modelled from the spec: a note, identified by its title, with a text
    content. *)
Record Note : Type := { title : string; content : string }.

(** Modelled from the spec: the handle of a stored note, which is its place
    in the enumeration, with the basename that [TFile] carries. *)
Record NoteRef : Type := { pos : nat; ref_name : string }.

(** Modelled from the spec: the operations of the Note Store on the notes in
    their enumeration order.  [create] adds a note under the title of the
    path, last, and does nothing when the title is taken; [append]
    concatenates to the content of the note it is handed; [read] returns that
    content; a handle that points to no note is rejected; no operation
    removes a note. *)
Module NoteStore.

Abbreviation t := (list Note) (only parsing).

Fixpoint refs_from (i : nat) (st : t) : list NoteRef :=
  match st with
  | [] => []
  | n :: st' => {| pos := i; ref_name := title n |} :: refs_from (S i) st'
  end.

(** the basename of [path]: the path without its extension [.md] *)
Fixpoint strip_md (path : string) : string :=
  match path with
  | EmptyString => EmptyString
  | String c path' => if String.eqb path ".md" then EmptyString else String c (strip_md path')
  end.

Fixpoint set_content (i : nat) (new_content : string) (st : t) : t :=
  match st, i with
  | [], _ => []
  | n :: st', O => {| title := title n; content := new_content |} :: st'
  | n :: st', S i' => n :: set_content i' new_content st'
  end.

Definition has_title (name : string) (st : t) : bool :=
  existsb (fun n => String.eqb (title n) name) st.

Definition create (path data : string) : M t unit :=
  fun st =>
    let name := strip_md path in
    if has_title name st then (Returned tt, st)
    else (Returned tt, (st ++ [{| title := name; content := data |}])%list).

Definition append (f : NoteRef) (data : string) : M t unit :=
  fun st =>
    match nth_error st (pos f) with
    | Some n => (Returned tt, set_content (pos f) (content n ++ data) st)
    | None => (Thrown (VaultError "no such file"), st)
    end.

Definition read (f : NoteRef) : M t string :=
  fun st =>
    match nth_error st (pos f) with
    | Some n => (Returned (content n), st)
    | None => (Thrown (VaultError "no such file"), st)
    end.

End NoteStore.

(** Modelled from the spec: the Note Store as the vault of the plugin;
    [getMarkdownFiles] hands out the notes in their enumeration order. *)
#[export] Instance note_store : Vault NoteStore.t NoteRef := {
  basename := ref_name;
  getMarkdownFiles := NoteStore.refs_from 0;
  vault_create := NoteStore.create;
  vault_append := NoteStore.append;
  vault_read := NoteStore.read
}.

(** [handleCommand] on the note store *)
Definition run (text : string) (st : NoteStore.t) : outcome string * NoteStore.t :=
  handleCommand text st.

Definition note (t c : string) : Note := {| title := t; content := c |}.

(* ================================================================== *)
(** ** Vocabulary of the statements *)

(** the first [k] code units *)
Fixpoint take (k : nat) (s : string) : string :=
  match k, s with
  | S k', String c s' => String c (take k' s')
  | _, _ => EmptyString
  end.

Fixpoint all_chars (P : ascii -> bool) (s : string) : bool :=
  match s with
  | EmptyString => true
  | String c s' => P c && all_chars P s'
  end.

Definition no_line_terminator (s : string) : bool := all_chars dot s.

Fixpoint last_char (s : string) : option ascii :=
  match s with
  | EmptyString => None
  | String c EmptyString => Some c
  | String _ s' => last_char s'
  end.

Fixpoint count_char (a : ascii) (s : string) : nat :=
  match s with
  | EmptyString => 0
  | String c s' => (if Ascii.eqb c a then 1 else 0) + count_char a s'
  end.

(** The content captured from the text [after] a delimiting colon: the text
    with its leading white space skipped, which has to be non-empty and free
    of line terminators; and when [after] is white space only, its last code
    unit, which has to be no line terminator. *)
Definition content_after (after : string) : option string :=
  match trimStart after with
  | EmptyString =>
      match last_char after with
      | Some c => if isLineTerminator c then None else Some (String c EmptyString)
      | None => None
      end
  | String c s' =>
      if no_line_terminator (String c s') then Some (String c s') else None
  end.

(** a code unit that a title in front of the first colon is made of *)
Definition title_char (c : ascii) : bool := dot c && negb (Ascii.eqb c ":").

(** The colon at index [k] of [rest] (the text after the keyword) can delimit
    the title, and the content is then [c]. *)
Definition delimiter (rest : string) (k : nat) (c : string) : Prop :=
  1 <= k /\
  no_line_terminator (take k rest) = true /\
  String.get k rest = Some ":"%char /\
  content_after (substring (S k) rest) = Some c.

(** a capital letter below U+0100: A-Z, and U+00C0..U+00DE but the
    multiplication sign; its small letter is 32 code units above *)
Definition is_capital (c : ascii) : bool :=
  let n := code c in
  ((65 <=? n) && (n <=? 90)) || ((192 <=? n) && (n <=? 222) && negb (n =? 215)).

(** the same code unit, or a capital letter and its small letter *)
Definition same_letter (a b : ascii) : bool :=
  Ascii.eqb a b
  || (is_capital a && (code b =? code a + 32))
  || (is_capital b && (code a =? code b + 32)).

(** the same text up to the case of letters *)
Fixpoint eq_up_to_case (s t : string) : bool :=
  match s, t with
  | EmptyString, EmptyString => true
  | String a s', String b t' => same_letter a b && eq_up_to_case s' t'
  | _, _ => false
  end.

(** [t] occurs in [s] up to the case of letters *)
Definition ci_substring (t s : string) : Prop :=
  exists pre mid post,
    s = pre ++ mid ++ post /\ eq_up_to_case mid t = true.

(** the first note of that title in the enumeration *)
Definition lookup (name : string) (st : NoteStore.t) : option Note :=
  find (fun n => String.eqb (title n) name) st.

Definition titles (st : NoteStore.t) : list string := map title st.

(** no stored note has exactly that title *)
Definition absent (name : string) (st : NoteStore.t) : Prop :=
  forall n, In n st -> title n <> name.

(** the test of [searchNotes] on one note *)
Definition matches_term (term : string) (n : Note) : bool :=
  includes (toLowerCase (content n)) (toLowerCase term).

(** the two responses of the route *)
Definition bad_request : Response :=
  {| statusCode := 400; contentType := None;
     written := stringify1 "error" "bad request" |}.

Definition ok_response (result : string) : Response :=
  {| statusCode := 200; contentType := Some "application/json";
     written := stringify1 "result" result |}.

Definition post_command (body : option JsValue) : Request :=
  {| method := "POST"; url := "/command"; parsed := body |}.

(** the body [{"text": true}] *)
Definition text_true : JsValue := JObject [("text", JBool true)].

(** A vault that rejects every write. *)
Definition rejecting_vault : Vault NoteStore.t NoteRef := {|
  basename := ref_name;
  getMarkdownFiles := NoteStore.refs_from 0;
  vault_create := fun _ _ => throw (VaultError "rejected");
  vault_append := fun _ _ => throw (VaultError "rejected");
  vault_read := NoteStore.read
|}.

Definition is_prefix_of {A} (xs ys : list A) : Prop := exists zs, ys = (xs ++ zs)%list.

(** the response to any other route *)
Definition not_found : Response :=
  {| statusCode := 404; contentType := None; written := "" |}.

(** [body?.text] is [undefined] or falsy *)
Definition no_text (body : JsValue) : bool :=
  match body with
  | JObject props =>
      match get_prop "text" props with
      | Some v => negb (truthy v)
      | None => true
      end
  | _ => true
  end.

(** the titles that a command writes to *)
Definition targets (cmd : Command) (name : string) : Prop :=
  match cmd with
  | CreateNote t | AppendToNote t _ => t = name
  | _ => False
  end.

(* ================================================================== *)
(** ** The settings: [loadSettings], [saveSettings] and the settings tab

    [serverPort] is a Number; the model keeps the integer it stands for.
    [parseInt] and [String] are exact on the integers up to 2^53. *)

Record VoicePluginSettings : Type := { serverPort : Z }.

Definition DEFAULT_SETTINGS : VoicePluginSettings := {| serverPort := 27123 |}.

(** The object that the host keeps for the plugin ([data.json]): written by
    [saveData], it has the key [serverPort]; an object without the key leaves
    the default in place. *)
Record PluginData : Type := { data_serverPort : option Z }.

(** [this.settings], and what [loadData] returns ([None] is [null]). *)
Record PluginState : Type := {
  settings : VoicePluginSettings;
  saved : option PluginData
}.

(** [Object.assign({}, DEFAULT_SETTINGS, await this.loadData())] *)
Definition loadSettings (st : PluginState) : PluginState :=
  {| settings :=
       {| serverPort :=
            match saved st with
            | Some {| data_serverPort := Some p |} => p
            | _ => serverPort DEFAULT_SETTINGS
            end |};
     saved := saved st |}.

Definition saveSettings (st : PluginState) : PluginState :=
  {| settings := settings st;
     saved := Some {| data_serverPort := Some (serverPort (settings st)) |} |}.

(** a decimal digit and its value *)
Definition digit (c : ascii) : option Z :=
  let n := code c in
  if (48 <=? n) && (n <=? 57) then Some (Z.of_nat (n - 48)) else None.

(** the value of the leading digits of [s], after the digits that gave [acc] *)
Fixpoint digits_from (acc : Z) (s : string) : Z :=
  match s with
  | String c s' =>
      match digit c with
      | Some d => digits_from (10 * acc + d) s'
      | None => acc
      end
  | EmptyString => acc
  end.

(** the digits of [parseInt]: [None], which is [NaN], when there is none *)
Definition parse_digits (s : string) : option Z :=
  match s with
  | String c _ =>
      match digit c with
      | Some _ => Some (digits_from 0 s)
      | None => None
      end
  | EmptyString => None
  end.

(** [parseInt(value, 10)]: leading white space, a sign, the leading digits *)
Definition parseInt (value : string) : option Z :=
  match trimStart value with
  | String "-" r => option_map Z.opp (parse_digits r)
  | String "+" r => parse_digits r
  | s => parse_digits s
  end.

(** [String(n)] of a natural number: its decimal digits *)
Definition decimal (n : nat) : string :=
  DecimalString.NilEmpty.string_of_uint (Nat.to_uint n).

(** [String(num)] of an integer *)
Definition js_String (z : Z) : string :=
  match z with
  | Zneg p => "-" ++ decimal (Pos.to_nat p)
  | _ => decimal (Z.to_nat z)
  end.

(** the callback of [onChange] in [display] *)
Definition onChange (value : string) (st : PluginState) : PluginState :=
  match parseInt value with
  | Some num => saveSettings {| settings := {| serverPort := num |}; saved := saved st |}
  | None => st
  end.

(** the state after the port [p] was accepted and saved *)
Definition port_saved (p : Z) : PluginState :=
  {| settings := {| serverPort := p |};
     saved := Some {| data_serverPort := Some p |} |}.

Definition is_digit (c : ascii) : bool :=
  match digit c with Some _ => true | None => false end.

(** [s] does not start with a digit *)
Definition no_leading_digit (s : string) : bool :=
  match s with
  | String c _ => negb (is_digit c)
  | EmptyString => true
  end.

(* ================================================================== *)
(** ** The search on strings with Greek letters

    A second model of strings, for the test of [searchNotes] beyond U+00FF:
    a string is the list of its code units, each one a number.  [toLowerCase]
    is the one of JavaScript on the code units below U+0100 and the Greek
    letters U+0391..U+03A9 and U+03B1..U+03C9 (capital sigma included); other
    code units are not modelled and are left as they are. *)

Module Wide.

Definition wstring : Type := list N.

(** a string of the model above, as the list of its code units *)
Fixpoint wide (s : string) : wstring :=
  match s with
  | EmptyString => []
  | String c s' => N.of_nat (code c) :: wide s'
  end.

Definition between (lo hi u : N) : bool := (lo <=? u)%N && (u <=? hi)%N.

(** the capitals whose small letter is 32 code units above: A-Z, the Latin-1
    capitals, and the Greek capitals U+0391..U+03A1 and U+03A3..U+03A9 *)
Definition capital (u : N) : bool :=
  between 65 90 u
  || (between 192 222 u && negb (u =? 215)%N)
  || between 913 929 u
  || between 931 937 u.

(** the small letters: a-z, the Latin-1 ones (with the ordinal indicators and
    the micro sign), and the Greek U+03B1..U+03C9 *)
Definition small (u : N) : bool :=
  between 97 122 u
  || (u =? 170)%N || (u =? 181)%N || (u =? 186)%N
  || between 223 246 u
  || between 248 255 u
  || between 945 969 u.

(** the property Cased *)
Definition cased (u : N) : bool := capital u || small u.

(** the property Case_Ignorable: the apostrophe, full stop, colon,
    circumflex, grave accent, diaeresis, soft hyphen, macron, acute accent,
    middle dot and cedilla *)
Definition case_ignorable (u : N) : bool :=
  (u =? 39)%N || (u =? 46)%N || (u =? 58)%N || (u =? 94)%N || (u =? 96)%N
  || (u =? 168)%N || (u =? 173)%N || (u =? 175)%N || (u =? 180)%N
  || (u =? 183)%N || (u =? 184)%N.

Definition lower_unit (u : N) : N := if capital u then (u + 32)%N else u.

(** the second half of the condition Final_Sigma: what follows is not
    case-ignorable code units and then a cased letter *)
Fixpoint cased_follows (s : wstring) : bool :=
  match s with
  | [] => false
  | u :: s' => if case_ignorable u then cased_follows s' else cased u
  end.

(** [toLowerCase] from the code unit after a context that [ends_word_part]
    describes: a cased letter and then case-ignorable code units came before.
    A capital sigma (U+03A3) becomes the final sigma (U+03C2) when such a
    context is before it and no cased letter follows, the small sigma
    (U+03C3) otherwise. *)
Fixpoint lower_from (ends_word_part : bool) (s : wstring) : wstring :=
  match s with
  | [] => []
  | u :: s' =>
      (if (u =? 931)%N
       then (if ends_word_part && negb (cased_follows s') then 962%N else 963%N)
       else lower_unit u)
      :: lower_from (if case_ignorable u then ends_word_part else cased u) s'
  end.

Definition toLowerCase (s : wstring) : wstring := lower_from false s.

Fixpoint startsWith (s p : wstring) : bool :=
  match p, s with
  | [], _ => true
  | a :: p', b :: s' => (a =? b)%N && startsWith s' p'
  | _ :: _, [] => false
  end.

Fixpoint includes (s t : wstring) : bool :=
  startsWith s t ||
  match s with
  | [] => false
  | _ :: s' => includes s' t
  end.

Record Note : Type := { title : wstring; content : wstring }.

(** the loop of [searchNotes] (lines 120-125) on a vault that is the list of
    its notes, each read returning the content *)
Fixpoint searchLoop (term : wstring) (files : list Note) (results : list wstring)
  : list wstring :=
  match files with
  | [] => results
  | file :: files' =>
      searchLoop term files'
        (if includes (toLowerCase (content file)) (toLowerCase term)
         then (results ++ [title file])%list else results)
  end.

Definition searchNotes (term : wstring) (files : list Note) : list wstring :=
  searchLoop term files [].

(** the word with the code units U+039F U+0394 U+039F U+03A3, and its last
    letter, the capital sigma *)
Definition odos : wstring := [927; 916; 927; 931]%N.
Definition sigma : wstring := [931]%N.

End Wide.

(* ================================================================== *)
(** * Properties *)

(** ** Code units *)

Ltac all_ascii c := destruct c as [[] [] [] [] [] [] [] []]; vm_compute; reflexivity.

Lemma upper_lower (c : ascii) : upper_char (lower_char c) = upper_char c.
Proof. all_ascii c. Qed.

Lemma ws_lower (c : ascii) : isWhiteSpace (lower_char c) = isWhiteSpace c.
Proof. all_ascii c. Qed.

Lemma ci_eqb_colon (c : ascii) : ci_eqb c ":" = Ascii.eqb c ":".
Proof. all_ascii c. Qed.

Lemma ci_eqb_lower (c : ascii) : ci_eqb c (lower_char c) = true.
Proof. unfold ci_eqb. rewrite upper_lower. apply Ascii.eqb_refl. Qed.

(** ** Strings *)

Lemma append_nil_r (s : string) : s ++ "" = s.
Proof. induction s; simpl; congruence. Qed.

Lemma append_assoc (a b c : string) : (a ++ b) ++ c = a ++ (b ++ c).
Proof. induction a; simpl; congruence. Qed.

Lemma string_length_app (a b : string) :
  String.length (a ++ b) = String.length a + String.length b.
Proof. induction a; simpl; congruence. Qed.

Lemma toLowerCase_app (a b : string) :
  toLowerCase (a ++ b) = toLowerCase a ++ toLowerCase b.
Proof. induction a; simpl; congruence. Qed.

Lemma toLowerCase_length (s : string) : String.length (toLowerCase s) = String.length s.
Proof. induction s; simpl; congruence. Qed.

Lemma all_ws_lower (s : string) :
  all_chars isWhiteSpace (toLowerCase s) = all_chars isWhiteSpace s.
Proof. induction s; simpl; [reflexivity|]. now rewrite ws_lower, IHs. Qed.

Lemma trimEnd_empty (s : string) :
  trimEnd s = "" <-> all_chars isWhiteSpace s = true.
Proof.
  induction s as [|c s IH]; simpl; [tauto|].
  destruct (trimEnd s) eqn:E.
  - destruct (isWhiteSpace c); simpl.
    + split; intros _; [now apply IH | reflexivity].
    + split; discriminate.
  - split; [discriminate|]. intros Hc.
    apply andb_true_iff in Hc. destruct Hc as [_ Hs].
    apply IH in Hs. discriminate.
Qed.

Lemma trimEnd_app (a b : string) :
  trimEnd b <> "" -> trimEnd (a ++ b) = a ++ trimEnd b.
Proof.
  intros Hb. induction a as [|c a IH]; simpl; [reflexivity|].
  rewrite IH. destruct (a ++ trimEnd b) eqn:E; [|reflexivity].
  destruct a; simpl in E; [contradiction | discriminate].
Qed.

Lemma trimEnd_cons (c : ascii) (s : string) :
  isWhiteSpace c = false -> trimEnd (String c s) = String c (trimEnd s).
Proof. intros Hc. simpl. rewrite Hc. now destruct (trimEnd s). Qed.

Lemma trimStart_ws (w s : string) :
  all_chars isWhiteSpace w = true -> trimStart (w ++ s) = trimStart s.
Proof.
  induction w as [|c w IH]; simpl; [reflexivity|]. intros Hw.
  apply andb_true_iff in Hw. destruct Hw as [Hc Hw]. rewrite Hc. now apply IH.
Qed.

Lemma get_not_all (P : ascii -> bool) (s : string) (k : nat) (c : ascii) :
  String.get k s = Some c -> P c = false -> all_chars P s = false.
Proof.
  revert k. induction s as [|a s IH]; intros k Hk Hc; simpl in *; [discriminate|].
  destruct k.
  - injection Hk as ->. now rewrite Hc.
  - rewrite (IH _ Hk Hc). apply andb_false_r.
Qed.

Lemma get_app_r (a b : string) (k : nat) :
  String.get (String.length a + k) (a ++ b) = String.get k b.
Proof. induction a; simpl; auto. Qed.

Lemma take_app (a b : string) : take (String.length a) (a ++ b) = a.
Proof. induction a; simpl; [now destruct b | congruence]. Qed.

Lemma substring_app (a b : string) : substring (String.length a) (a ++ b) = b.
Proof. induction a; simpl; auto. Qed.

Lemma take_substring (k : nat) (s : string) : take k s ++ substring k s = s.
Proof.
  revert s. induction k as [|k IH]; intros s; simpl; [now destruct s|].
  destruct s; simpl; [reflexivity|]. now rewrite IH.
Qed.

Lemma last_char_cons (c : ascii) (s : string) :
  s <> "" -> last_char (String c s) = last_char s.
Proof. destruct s; [contradiction | reflexivity]. Qed.

Lemma last_char_all (P : ascii -> bool) (s : string) (c : ascii) :
  all_chars P s = true -> last_char s = Some c -> P c = true.
Proof.
  induction s as [|a s IH]; simpl; [discriminate|]. intros Ha Hl.
  apply andb_true_iff in Ha. destruct Ha as [Ha Hs].
  destruct s; [injection Hl as <-; exact Ha | now apply IH].
Qed.

Lemma all_chars_trimStart (P : ascii -> bool) (s : string) :
  all_chars P (trimStart s) = false -> all_chars P s = false.
Proof.
  induction s as [|c s IH]; simpl; [auto|].
  destruct (isWhiteSpace c); simpl; [|auto].
  intros Hs. rewrite (IH Hs). apply andb_false_r.
Qed.

Lemma last_char_not_all (P : ascii -> bool) (s : string) (c : ascii) :
  last_char s = Some c -> P c = false -> all_chars P s = false.
Proof.
  intros Hl Hc. destruct (all_chars P s) eqn:E; [|reflexivity].
  rewrite (last_char_all P s c E Hl) in Hc. discriminate.
Qed.

Lemma last_char_cons_some (c : ascii) (s : string) : last_char (String c s) <> None.
Proof. revert c. induction s as [|d s IH]; intros c; [discriminate | apply (IH d)]. Qed.

Lemma no_line_terminator_cons (c : ascii) (s : string) :
  all_chars dot s = false -> no_line_terminator (String c s) = false.
Proof. intros Hs. unfold no_line_terminator. cbn. rewrite Hs. apply andb_false_r. Qed.

(** ** The matcher *)

Section Matcher.
Variable file : string.

Lemma greedy_star_cap_to_end (s acc : string) :
  greedy_star_cap dot acc s (to_end file) =
  if no_line_terminator s then Some (file, acc ++ s) else None.
Proof.
  revert acc. induction s as [|c s IH]; intros acc; simpl.
  - unfold to_end. cbn. now rewrite append_nil_r.
  - unfold no_line_terminator; simpl. destruct (dot c); simpl; [|reflexivity].
    rewrite IH. unfold no_line_terminator.
    destruct (all_chars dot s); [|reflexivity].
    now rewrite append_assoc.
Qed.

Lemma greedy_plus_cap_to_end (s : string) :
  greedy_plus_cap dot s (to_end file) =
  match s with
  | EmptyString => None
  | String _ _ => if no_line_terminator s then Some (file, s) else None
  end.
Proof.
  destruct s as [|c s]; simpl; [reflexivity|].
  unfold no_line_terminator; simpl. destruct (dot c); simpl; [|reflexivity].
  now rewrite greedy_star_cap_to_end.
Qed.

(** [\s*(.+)$] captures [content_after]. *)
Lemma after_colon_spec (after : string) :
  after_colon file after = option_map (pair file) (content_after after).
Proof.
  unfold after_colon.
  induction after as [|c s IH].
  - reflexivity.
  - cbn [greedy_star]. rewrite greedy_plus_cap_to_end.
    destruct (isWhiteSpace c) eqn:Hc.
    + rewrite IH. unfold content_after. cbn [trimStart]. rewrite Hc.
      destruct (trimStart s) as [|d s'] eqn:Ht.
      * destruct s as [|e s2].
        { cbn. unfold no_line_terminator, dot. cbn.
          destruct (isLineTerminator c); reflexivity. }
        { rewrite (last_char_cons c (String e s2)) by discriminate.
          destruct (last_char (String e s2)) as [l|] eqn:Hl;
            [|now apply last_char_cons_some in Hl].
          destruct (isLineTerminator l) eqn:Hlt; [|reflexivity].
          cbn [option_map].
          assert (Hn : no_line_terminator (String c (String e s2)) = false).
          { apply no_line_terminator_cons, (last_char_not_all dot _ l Hl).
            unfold dot. now rewrite Hlt. }
          now rewrite Hn. }
      * destruct (no_line_terminator (String d s')) eqn:Hn; [reflexivity|].
        cbn [option_map].
        assert (Hn' : no_line_terminator (String c s) = false).
        { apply no_line_terminator_cons, all_chars_trimStart.
          now rewrite Ht. }
        now rewrite Hn'.
    + unfold content_after. cbn [trimStart]. rewrite Hc.
      destruct (no_line_terminator (String c s)); reflexivity.
Qed.
End Matcher.

Lemma from_colon_spec (file s : string) (f c : string) :
  from_colon file s = Some (f, c) <->
  f = file /\ String.get 0 s = Some ":"%char /\ content_after (substring 1 s) = Some c.
Proof.
  unfold from_colon. destruct s as [|b s]; cbn [lit String.get substring].
  - split; [discriminate | intros (_ & E & _); discriminate].
  - rewrite ci_eqb_colon. destruct (Ascii.eqb_spec b ":") as [->|Hb].
    + rewrite after_colon_spec. destruct (content_after s) as [c'|]; cbn.
      * split; [intros E; injection E as <- <-; auto | intros (-> & _ & E); congruence].
      * split; [discriminate | intros (_ & _ & E); discriminate].
    + split; [discriminate | intros (_ & E & _); congruence].
Qed.

Lemma delimiter_one (a : ascii) (s c : string) :
  delimiter (String a s) 1 c <->
  dot a = true /\ String.get 0 s = Some ":"%char /\ content_after (substring 1 s) = Some c.
Proof.
  unfold delimiter, no_line_terminator. cbn [take all_chars String.get substring].
  rewrite andb_true_r. intuition lia.
Qed.

Lemma delimiter_cons (a : ascii) (s c : string) (n : nat) :
  1 <= n ->
  (delimiter (String a s) (S n) c <-> dot a = true /\ delimiter s n c).
Proof.
  intros Hn. unfold delimiter, no_line_terminator.
  cbn [take all_chars String.get substring].
  rewrite andb_true_iff. intuition lia.
Qed.

Lemma delimiter_dot (a : ascii) (s c : string) (n : nat) :
  delimiter (String a s) n c -> dot a = true.
Proof.
  intros (Hn & Ht & _). destruct n; [lia|].
  unfold no_line_terminator in Ht. cbn in Ht.
  now apply andb_true_iff in Ht.
Qed.

(** [(.+?)] stops at the first colon that can delimit. *)
Lemma lazy_plus_spec (s acc f c : string) :
  lazy_plus dot acc s from_colon = Some (f, c) <->
  exists n, f = acc ++ take n s /\ delimiter s n c /\
            forall j c', j < n -> ~ delimiter s j c'.
Proof.
  revert acc. induction s as [|a s IH]; intros acc; cbn [lazy_plus].
  - split; [discriminate|]. intros (n & _ & (_ & _ & E & _) & _).
    destruct n; discriminate.
  - destruct (dot a) eqn:Ha.
    + destruct (from_colon (acc ++ String a "") s) as [[f1 c1]|] eqn:Hk.
      * apply from_colon_spec in Hk. destruct Hk as (-> & Hg & Hc).
        assert (D1 : delimiter (String a s) 1 c1) by (apply delimiter_one; auto).
        split.
        { intros E. injection E as <- <-. exists 1. split; [reflexivity|].
          split; [exact D1|]. intros j c' Hj (Hj' & _). lia. }
        { intros (n & -> & D & Hmin).
          destruct n as [|[|n]].
          - destruct D as (Hn & _). lia.
          - apply delimiter_one in D. destruct D as (_ & _ & Hc').
            cbn. congruence.
          - exfalso. apply (Hmin 1 c1); [lia | exact D1]. }
      * rewrite IH. split.
        { intros (n & -> & D & Hmin).
          assert (Hn : 1 <= n) by (destruct D; assumption).
          exists (S n). split; [cbn; now rewrite append_assoc|].
          split; [apply delimiter_cons; auto|].
          intros j c' Hj D'.
          destruct j as [|[|j]].
          - destruct D' as (Hj' & _). lia.
          - apply delimiter_one in D'. destruct D' as (_ & Hg & Hc).
            assert (E : from_colon (acc ++ String a "") s = Some (acc ++ String a "", c'))
              by (apply from_colon_spec; auto).
            congruence.
          - apply delimiter_cons in D'; [|lia]. destruct D' as (_ & D').
            apply (Hmin (S j) c'); [lia | exact D']. }
        { intros (n & -> & D & Hmin).
          destruct n as [|[|n]].
          - destruct D as (Hn & _). lia.
          - apply delimiter_one in D. destruct D as (_ & Hg & Hc).
            assert (E : from_colon (acc ++ String a "") s = Some (acc ++ String a "", c))
              by (apply from_colon_spec; auto).
            congruence.
          - apply delimiter_cons in D; [|lia]. destruct D as (_ & D).
            exists (S n). split; [cbn; now rewrite append_assoc|].
            split; [exact D|].
            intros j c' Hj D'.
            assert (Hj1 : 1 <= j) by (destruct D'; assumption).
            apply (Hmin (S j) c'); [lia|].
            apply delimiter_cons; auto. }
    + split; [discriminate|]. intros (n & _ & D & _).
      apply delimiter_dot in D. congruence.
Qed.

Lemma lit_lower {R : Type} (kw s : string) (k : @kont R) :
  lit (toLowerCase kw) (kw ++ s) k = k s.
Proof. induction kw as [|c kw IH]; cbn; [reflexivity|]. now rewrite ci_eqb_lower. Qed.

(** The whole pattern on a text that starts with the keyword. *)
Lemma match_append_spec (kw rest f c : string) :
  toLowerCase kw = "append to " ->
  (match_append (kw ++ rest) = Some (f, c) <->
   exists n, f = take n rest /\ delimiter rest n c /\
             forall j c', j < n -> ~ delimiter rest j c').
Proof.
  intros Hkw. unfold match_append. rewrite <- Hkw, lit_lower.
  apply (lazy_plus_spec rest "" f c).
Qed.

(** ** The parser *)

Lemma prefix_app (p s : string) : String.prefix p (p ++ s) = true.
Proof.
  induction p as [|c p IH]; cbn; [now destruct s|].
  destruct (ascii_dec c c); [exact IH | contradiction].
Qed.

Lemma nonws_trimEnd (s : string) (k : nat) (c : ascii) :
  String.get k s = Some c -> isWhiteSpace c = false -> trimEnd (toLowerCase s) <> "".
Proof.
  intros Hk Hc E. apply trimEnd_empty in E. rewrite all_ws_lower in E.
  rewrite (get_not_all isWhiteSpace s k c Hk Hc) in E. discriminate.
Qed.

(** The lowercased and trimmed copy of a text that starts with a keyword
    [kw] whose first code unit is no white space, when more than white space
    follows the keyword. *)
Lemma lower_keyword (kw rest : string) (c : ascii) (p : string) :
  toLowerCase kw = String c p -> isWhiteSpace c = false ->
  trimEnd (toLowerCase rest) <> "" ->
  trim (toLowerCase (kw ++ rest)) = String c p ++ trimEnd (toLowerCase rest).
Proof.
  intros Hkw Hc Hrest. unfold trim.
  rewrite toLowerCase_app, trimEnd_app, Hkw by assumption.
  cbn. now rewrite Hc.
Qed.

Lemma parse_append_inv (text f c : string) :
  parse text = AppendToNote f c -> match_append text = Some (f, c).
Proof.
  unfold parse.
  destruct (startsWith _ "create note "); [discriminate|].
  destruct (startsWith _ "append to ").
  - destruct (match_append text) as [[f' c']|]; [congruence|].
    destruct (startsWith _ "read note "); [discriminate|].
    destruct (String.eqb _ "list notes"); [discriminate|].
    destruct (startsWith _ "search for "); discriminate.
  - destruct (startsWith _ "read note "); [discriminate|].
    destruct (String.eqb _ "list notes"); [discriminate|].
    destruct (startsWith _ "search for "); discriminate.
Qed.

(** On a text that starts with the keyword, the command is decided by the
    pattern alone. *)
Lemma parse_append_iff (kw rest f c : string) :
  toLowerCase kw = "append to " ->
  (parse (kw ++ rest) = AppendToNote f c <-> match_append (kw ++ rest) = Some (f, c)).
Proof.
  intros Hkw. split; [apply parse_append_inv|]. intros Hm.
  pose proof Hm as Hd. apply (match_append_spec kw rest f c Hkw) in Hd.
  destruct Hd as (n & _ & (_ & _ & Hg & _) & _).
  unfold parse.
  rewrite (lower_keyword kw rest "a" "ppend to " Hkw eq_refl
             (nonws_trimEnd rest n ":" Hg eq_refl)).
  change (startsWith ("append to " ++ trimEnd (toLowerCase rest)) "create note ")
    with false.
  unfold startsWith at 1. rewrite prefix_app, Hm. reflexivity.
Qed.

Lemma trimStart_suffix (s : string) : exists w, s = w ++ trimStart s.
Proof.
  induction s as [|c s (w & IH)]; [now exists ""|]. cbn.
  destruct (isWhiteSpace c); [|now exists ""].
  exists (String c w). cbn. congruence.
Qed.

Lemma last_char_suffix (s : string) (c : ascii) :
  last_char s = Some c -> exists pre, s = pre ++ String c "".
Proof.
  induction s as [|a s IH]; [discriminate|]. destruct s as [|b s].
  - intros E. injection E as ->. now exists "".
  - intros E. destruct (IH E) as (pre & Hp). exists (String a pre). cbn. congruence.
Qed.

Lemma content_after_sound (after c : string) :
  content_after after = Some c ->
  no_line_terminator c = true /\ c <> "" /\ exists pre, after = pre ++ c.
Proof.
  unfold content_after. destruct (trimStart after) as [|d s'] eqn:Ht.
  - destruct (last_char after) as [l|] eqn:Hl; [|discriminate].
    destruct (isLineTerminator l) eqn:Hlt; [discriminate|].
    intros E. injection E as <-. repeat split.
    + unfold no_line_terminator, dot. cbn. now rewrite Hlt.
    + discriminate.
    + now apply last_char_suffix.
  - destruct (no_line_terminator (String d s')) eqn:Hn; [|discriminate].
    intros E. injection E as <-. repeat split; [exact Hn | discriminate|].
    rewrite <- Ht. apply trimStart_suffix.
Qed.

Lemma lit_inv {R : Type} (pat s : string) (k : @kont R) (r : R) :
  lit pat s k = Some r -> exists kw rest, s = kw ++ rest /\ k rest = Some r.
Proof.
  revert s. induction pat as [|p pat IH]; intros s; cbn.
  - intros E. now exists "", s.
  - destruct s as [|c s]; [discriminate|].
    destruct (ci_eqb c p); [|discriminate]. intros E.
    destruct (IH s E) as (kw & rest & -> & Hk). now exists (String c kw), rest.
Qed.

(** What the second capture can be: a non-empty end of the text without a
    line terminator. *)
Lemma match_append_content (text f c : string) :
  match_append text = Some (f, c) ->
  no_line_terminator c = true /\ c <> "" /\ exists pre, text = pre ++ c.
Proof.
  unfold match_append. intros E.
  apply lit_inv in E. destruct E as (kw & rest & -> & E).
  apply lazy_plus_spec in E. destruct E as (n & _ & (_ & _ & _ & Hc) & _).
  apply content_after_sound in Hc. destruct Hc as (Hn & Hne & pre & Hp).
  repeat split; try assumption.
  exists (kw ++ take (S n) rest ++ pre).
  rewrite !append_assoc, <- Hp, take_substring. reflexivity.
Qed.

Lemma get_app_l (a b : string) (k : nat) :
  k < String.length a -> String.get k (a ++ b) = String.get k a.
Proof.
  revert k. induction a as [|c a IH]; intros k Hk; cbn in *; [lia|].
  destruct k; [reflexivity|]. apply IH. lia.
Qed.

Lemma get_all (P : ascii -> bool) (s : string) (k : nat) (c : ascii) :
  all_chars P s = true -> String.get k s = Some c -> P c = true.
Proof.
  intros Ha Hk. destruct (P c) eqn:E; [reflexivity|].
  rewrite (get_not_all P s k c Hk E) in Ha. discriminate.
Qed.

Lemma all_chars_impl (P Q : ascii -> bool) (s : string) :
  (forall c, P c = true -> Q c = true) -> all_chars P s = true -> all_chars Q s = true.
Proof.
  intros HPQ. induction s as [|c s IH]; cbn; [reflexivity|].
  rewrite !andb_true_iff. intuition.
Qed.

(** A text of the shape [append to <file>:<ws><content>]. *)
Lemma match_append_shape (kw file ws content : string) :
  toLowerCase kw = "append to " ->
  file <> "" -> all_chars title_char file = true ->
  all_chars isWhiteSpace ws = true ->
  content <> "" -> trimStart content = content ->
  no_line_terminator content = true ->
  match_append (kw ++ file ++ ":" ++ ws ++ content) = Some (file, content).
Proof.
  intros Hkw Hfile Htitle Hws Hne Hlead Hlt.
  apply (match_append_spec kw _ file content Hkw).
  exists (String.length file). split; [now rewrite take_app|]. split.
  - repeat split.
    + destruct file; [contradiction | cbn; lia].
    + rewrite take_app. revert Htitle. apply all_chars_impl.
      intros c Hc. unfold title_char in Hc. now apply andb_true_iff in Hc.
    + rewrite <- (Nat.add_0_r (String.length file)), get_app_r. reflexivity.
    + change (file ++ ":" ++ ws ++ content) with (file ++ String ":" (ws ++ content)).
      replace (file ++ String ":" (ws ++ content))
        with ((file ++ ":") ++ ws ++ content) by (now rewrite append_assoc).
      replace (S (String.length file)) with (String.length (file ++ ":"))
        by (rewrite string_length_app; cbn; lia).
      rewrite substring_app. unfold content_after.
      rewrite trimStart_ws, Hlead by assumption.
      destruct content; [contradiction|]. now rewrite Hlt.
  - intros j c' Hj (_ & _ & Hg & _).
    rewrite get_app_l in Hg by assumption.
    apply (get_all title_char file j ":" Htitle) in Hg. discriminate.
Qed.

(** A keyword of the substring commands, followed by more than white space:
    the argument is what follows the keyword, trimmed. *)
Lemma substring_keyword (kw rest : string) :
  substring (String.length (toLowerCase kw)) (kw ++ rest) = rest.
Proof. rewrite toLowerCase_length. apply substring_app. Qed.

Lemma parse_create_note (kw rest : string) :
  toLowerCase kw = "create note " -> trimEnd (toLowerCase rest) <> "" ->
  parse (kw ++ rest) = CreateNote (trim rest).
Proof.
  intros Hkw Hrest. unfold parse.
  rewrite (lower_keyword kw rest "c" "reate note " Hkw eq_refl Hrest).
  unfold startsWith at 1. rewrite prefix_app, <- Hkw, substring_keyword. reflexivity.
Qed.

Lemma parse_read_note (kw rest : string) :
  toLowerCase kw = "read note " -> trimEnd (toLowerCase rest) <> "" ->
  parse (kw ++ rest) = ReadNote (trim rest).
Proof.
  intros Hkw Hrest. unfold parse.
  rewrite (lower_keyword kw rest "r" "ead note " Hkw eq_refl Hrest).
  change (startsWith ("read note " ++ trimEnd (toLowerCase rest)) "create note ")
    with false.
  change (startsWith ("read note " ++ trimEnd (toLowerCase rest)) "append to ")
    with false.
  cbv iota. unfold startsWith at 1.
  rewrite prefix_app, <- Hkw, substring_keyword. reflexivity.
Qed.

Lemma parse_search_for (kw rest : string) :
  toLowerCase kw = "search for " -> trimEnd (toLowerCase rest) <> "" ->
  parse (kw ++ rest) = SearchNotes (trim rest).
Proof.
  intros Hkw Hrest. unfold parse.
  rewrite (lower_keyword kw rest "s" "earch for " Hkw eq_refl Hrest).
  change (startsWith ("search for " ++ trimEnd (toLowerCase rest)) "create note ")
    with false.
  change (startsWith ("search for " ++ trimEnd (toLowerCase rest)) "append to ")
    with false.
  change (startsWith ("search for " ++ trimEnd (toLowerCase rest)) "read note ")
    with false.
  change (String.eqb ("search for " ++ trimEnd (toLowerCase rest)) "list notes")
    with false.
  cbv iota. unfold startsWith at 1.
  rewrite prefix_app, <- Hkw, substring_keyword. reflexivity.
Qed.

(** What [trim] returns has no white space at either end. *)
Lemma trimStart_idem (s : string) : trimStart (trimStart s) = trimStart s.
Proof.
  induction s as [|c s IH]; [reflexivity|]. cbn.
  destruct (isWhiteSpace c) eqn:Hc; [exact IH|]. cbn. now rewrite Hc.
Qed.

Lemma trimEnd_idem (s : string) : trimEnd (trimEnd s) = trimEnd s.
Proof.
  induction s as [|c s IH]; [reflexivity|]. cbn.
  destruct (trimEnd s) as [|d r] eqn:E.
  - destruct (isWhiteSpace c) eqn:Hc; [reflexivity|]. cbn. now rewrite Hc.
  - cbn [trimEnd] in *. rewrite IH. reflexivity.
Qed.

Lemma trimEnd_trimStart (s : string) : trimEnd s = s -> trimEnd (trimStart s) = trimStart s.
Proof.
  induction s as [|c s IH]; [reflexivity|]. intros E. cbn [trimStart].
  destruct (isWhiteSpace c) eqn:Hc; [|exact E].
  apply IH. cbn in E. rewrite Hc in E.
  destruct (trimEnd s); [discriminate | congruence].
Qed.

Lemma trim_idem (s : string) : trim (trim s) = trim s.
Proof.
  unfold trim.
  rewrite (trimEnd_trimStart (trimEnd s) (trimEnd_idem s)).
  apply trimStart_idem.
Qed.

(** ** The note store *)

Lemma lookup_has_title (name : string) (st : NoteStore.t) :
  NoteStore.has_title name st = match lookup name st with Some _ => true | None => false end.
Proof.
  unfold NoteStore.has_title, lookup.
  induction st as [|n st IH]; cbn; [reflexivity|].
  destruct (String.eqb (title n) name); [reflexivity | exact IH].
Qed.

Lemma lookup_split (name : string) (st : NoteStore.t) (n : Note) :
  lookup name st = Some n ->
  exists pre post, st = (pre ++ n :: post)%list /\ lookup name pre = None /\ title n = name.
Proof.
  unfold lookup. induction st as [|m st IH]; cbn; [discriminate|].
  destruct (String.eqb_spec (title m) name) as [E|E].
  - intros H. injection H as ->. now exists [], st.
  - intros H. destruct (IH H) as (pre & post & -> & Hpre & Hn).
    exists (m :: pre), post. cbn. apply String.eqb_neq in E. rewrite E. auto.
Qed.

Lemma lookup_app_found (name : string) (pre post : NoteStore.t) (n : Note) :
  lookup name pre = None -> title n = name ->
  lookup name (pre ++ n :: post)%list = Some n.
Proof.
  unfold lookup. intros Hpre Hn. induction pre as [|m pre IH]; cbn in *.
  - now rewrite Hn, String.eqb_refl.
  - destruct (String.eqb (title m) name); [discriminate | auto].
Qed.

Lemma lookup_app_new (name : string) (st : NoteStore.t) (n : Note) :
  lookup name st = None -> title n = name -> lookup name (st ++ [n])%list = Some n.
Proof. apply lookup_app_found. Qed.

Lemma find_refs_none (name : string) (st : NoteStore.t) (i : nat) :
  lookup name st = None ->
  find (fun f => String.eqb (ref_name f) name) (NoteStore.refs_from i st) = None.
Proof.
  unfold lookup. revert i. induction st as [|n st IH]; intros i; cbn; [reflexivity|].
  destruct (String.eqb (title n) name); [discriminate | apply IH].
Qed.

Lemma find_refs_some (name : string) (pre post : NoteStore.t) (n : Note) (i : nat) :
  lookup name pre = None -> title n = name ->
  find (fun f => String.eqb (ref_name f) name) (NoteStore.refs_from i (pre ++ n :: post)%list) =
  Some {| pos := i + List.length pre; ref_name := name |}.
Proof.
  unfold lookup. intros Hpre Hn. revert i.
  induction pre as [|m pre IH]; intros i; cbn in *.
  - rewrite Hn, String.eqb_refl, Nat.add_0_r. reflexivity.
  - destruct (String.eqb (title m) name); [discriminate|].
    rewrite IH by assumption. f_equal. f_equal. lia.
Qed.

Lemma nth_error_mid (pre post : NoteStore.t) (n : Note) :
  nth_error (pre ++ n :: post)%list (List.length pre) = Some n.
Proof. induction pre; cbn; auto. Qed.

Lemma set_content_mid (pre post : NoteStore.t) (n : Note) (c : string) :
  NoteStore.set_content (List.length pre) c (pre ++ n :: post)%list =
  (pre ++ note (title n) c :: post)%list.
Proof. induction pre; cbn; [reflexivity | congruence]. Qed.

Lemma strip_md_name (name : string) : NoteStore.strip_md (name ++ ".md") = name.
Proof.
  induction name as [|c name IH]; [reflexivity|].
  cbn [append NoteStore.strip_md]. rewrite IH.
  destruct (String.eqb_spec (String c (name ++ ".md")) ".md") as [E|_]; [|reflexivity].
  apply (f_equal String.length) in E. cbn in E. rewrite string_length_app in E. cbn in E. lia.
Qed.

Lemma getFileByName_none (name : string) (st : NoteStore.t) :
  lookup name st = None -> getFileByName name st = (Returned None, st).
Proof.
  intros Hl. unfold getFileByName. cbn. now rewrite find_refs_none.
Qed.

Lemma getFileByName_some (name : string) (pre post : NoteStore.t) (n : Note) :
  lookup name pre = None -> title n = name ->
  getFileByName name (pre ++ n :: post)%list =
  (Returned (Some {| pos := List.length pre; ref_name := name |}), (pre ++ n :: post)%list).
Proof.
  intros Hpre Hn. unfold getFileByName. cbn.
  now rewrite (find_refs_some name pre post n 0 Hpre Hn).
Qed.

Lemma appendTo_none (name text : string) (st : NoteStore.t) :
  lookup name st = None -> appendTo name text st = (Returned tt, st).
Proof. intros Hl. unfold appendTo, bind. now rewrite getFileByName_none. Qed.

Lemma appendTo_some (name text : string) (pre post : NoteStore.t) (n : Note) :
  lookup name pre = None -> title n = name ->
  appendTo name text (pre ++ n :: post)%list =
  (Returned tt, (pre ++ note name (content n ++ LF ++ text) :: post)%list).
Proof.
  intros Hpre Hn. unfold appendTo, bind.
  rewrite (getFileByName_some name pre post n Hpre Hn).
  cbn. unfold NoteStore.append. cbn [pos].
  now rewrite nth_error_mid, set_content_mid, Hn.
Qed.

Lemma createNote_existing (name : string) (st : NoteStore.t) (n : Note) :
  lookup name st = Some n -> createNote name st = (Returned tt, st).
Proof.
  intros Hl. destruct (lookup_split name st n Hl) as (pre & post & -> & Hpre & Hn).
  unfold createNote, bind. now rewrite (getFileByName_some name pre post n Hpre Hn).
Qed.

Lemma createNote_new (name : string) (st : NoteStore.t) :
  lookup name st = None -> createNote name st = (Returned tt, (st ++ [note name ""])%list).
Proof.
  intros Hl. unfold createNote, bind. rewrite getFileByName_none by assumption.
  cbn. unfold NoteStore.create. now rewrite strip_md_name, lookup_has_title, Hl.
Qed.

Lemma readNote_lookup (name : string) (st : NoteStore.t) :
  readNote name st = (Returned (option_map content (lookup name st)), st).
Proof.
  destruct (lookup name st) as [n|] eqn:Hl.
  - destruct (lookup_split name st n Hl) as (pre & post & -> & Hpre & Hn).
    unfold readNote, bind. rewrite (getFileByName_some name pre post n Hpre Hn).
    cbn. unfold NoteStore.read. cbn [pos]. now rewrite nth_error_mid.
  - unfold readNote, bind. now rewrite getFileByName_none.
Qed.

Lemma searchLoop_filter (term : string) (rest pre : NoteStore.t) (results : list string) :
  searchLoop term (NoteStore.refs_from (List.length pre) rest) results (pre ++ rest)%list =
  (Returned (results ++ titles (filter (matches_term term) rest))%list, (pre ++ rest)%list).
Proof.
  revert pre results. induction rest as [|n rest IH]; intros pre results.
  - cbn. now rewrite !app_nil_r.
  - cbn [NoteStore.refs_from searchLoop]. unfold bind at 1.
    cbn [vault_read note_store]. unfold NoteStore.read at 1. cbn [pos].
    rewrite nth_error_mid.
    replace (pre ++ n :: rest)%list with ((pre ++ [n]) ++ rest)%list
      by (now rewrite <- app_assoc).
    replace (S (List.length pre)) with (List.length (pre ++ [n])%list)
      by (rewrite List.length_app; cbn; lia).
    rewrite IH. cbn [basename note_store ref_name filter].
    unfold matches_term at 2.
    destruct (includes (toLowerCase (content n)) (toLowerCase term)).
    + cbn. now rewrite <- app_assoc.
    + reflexivity.
Qed.

Lemma searchNotes_filter (term : string) (st : NoteStore.t) :
  searchNotes term st = (Returned (titles (filter (matches_term term) st)), st).
Proof. exact (searchLoop_filter term st [] []). Qed.

Lemma absent_lookup (name : string) (st : NoteStore.t) :
  absent name st <-> lookup name st = None.
Proof.
  unfold absent, lookup. induction st as [|m st IH]; cbn.
  - split; [reflexivity | intros _ n []].
  - destruct (String.eqb_spec (title m) name) as [E|E].
    + split; [|discriminate]. intros Ha. exfalso. apply (Ha m); auto.
    + rewrite <- IH. split.
      * intros Ha n Hn. apply Ha. auto.
      * intros Ha n [<-|Hn]; auto.
Qed.

Lemma present_lookup (name : string) (st : NoteStore.t) (n : Note) :
  In n st -> title n = name -> exists m, lookup name st = Some m.
Proof.
  intros Hin Hn. destruct (lookup name st) as [m|] eqn:Hl; [eauto|].
  apply absent_lookup in Hl. exfalso. exact (Hl n Hin Hn).
Qed.

(** ** Substrings *)

Lemma prefix_iff (t s : string) :
  String.prefix t s = true <-> exists post, s = t ++ post.
Proof.
  revert s. induction t as [|c t IH]; intros s; cbn.
  - split; [intros _; now exists s | intros _; now destruct s].
  - destruct s as [|d s].
    + split; [discriminate | intros (post & E); discriminate].
    + cbn. destruct (ascii_dec c d) as [<-|Hcd].
      * rewrite IH. split; intros (post & E); exists post; congruence.
      * split; [discriminate | intros (post & E); congruence].
Qed.

Lemma includes_iff (s t : string) :
  includes s t = true <-> exists pre post, s = pre ++ t ++ post.
Proof.
  induction s as [|c s IH]; cbn [includes]; rewrite orb_true_iff; unfold startsWith.
  - rewrite prefix_iff. split.
    + intros [(post & E)|E]; [now exists "", post | discriminate].
    + intros (pre & post & E). left. destruct pre; [now exists post | discriminate].
  - rewrite prefix_iff, IH. split.
    + intros [(post & E)|(pre & post & E)].
      * now exists "", post.
      * exists (String c pre), post. cbn. congruence.
    + intros (pre & post & E). destruct pre as [|d pre].
      * left. now exists post.
      * right. exists pre, post. cbn in E. congruence.
Qed.

Lemma toLowerCase_split (s a b : string) :
  toLowerCase s = a ++ b ->
  exists x y, s = x ++ y /\ toLowerCase x = a /\ toLowerCase y = b.
Proof.
  revert s. induction a as [|c a IH]; intros s E.
  - now exists "", s.
  - destruct s as [|d s]; [discriminate|]. cbn in E. injection E as Hc Hs.
    destruct (IH s Hs) as (x & y & -> & Hx & Hy).
    exists (String d x), y. cbn. repeat split; congruence.
Qed.

(** Two code units have the same lower case exactly when they are the same
    letter. *)
Lemma code_inj (a b : ascii) : code a = code b -> a = b.
Proof.
  unfold code. intros E.
  rewrite <- (ascii_nat_embedding a), <- (ascii_nat_embedding b). now rewrite E.
Qed.

Lemma capital_lower (a : ascii) :
  is_capital a = true ->
  code (lower_char a) = code a + 32 /\ is_capital (lower_char a) = false.
Proof.
  destruct a as [[] [] [] [] [] [] [] []]; intros Ha;
    try (vm_compute in Ha; discriminate); split; reflexivity.
Qed.

Lemma not_capital_lower (a : ascii) : is_capital a = false -> lower_char a = a.
Proof.
  destruct a as [[] [] [] [] [] [] [] []]; intros Ha;
    try (vm_compute in Ha; discriminate); reflexivity.
Qed.

Lemma lower_char_same_letter (a b : ascii) :
  lower_char a = lower_char b <-> same_letter a b = true.
Proof.
  unfold same_letter.
  rewrite !orb_true_iff, !andb_true_iff, Ascii.eqb_eq, !Nat.eqb_eq.
  split.
  - intros E. destruct (is_capital a) eqn:Ha; destruct (is_capital b) eqn:Hb.
    + destruct (capital_lower a Ha) as (Ca & _).
      destruct (capital_lower b Hb) as (Cb & _).
      left. left. apply code_inj. rewrite E in Ca. lia.
    + destruct (capital_lower a Ha) as (Ca & _).
      rewrite E, (not_capital_lower b Hb) in Ca. left. right. auto.
    + destruct (capital_lower b Hb) as (Cb & _).
      rewrite <- E, (not_capital_lower a Ha) in Cb. right. auto.
    + rewrite (not_capital_lower a Ha), (not_capital_lower b Hb) in E. auto.
  - intros [[E|(Ha & E)]|(Hb & E)].
    + now subst.
    + destruct (capital_lower a Ha) as (Ca & Na).
      assert (Hb : b = lower_char a) by (apply code_inj; lia).
      rewrite Hb. symmetry. now apply not_capital_lower.
    + destruct (capital_lower b Hb) as (Cb & Nb).
      assert (Ha : a = lower_char b) by (apply code_inj; lia).
      rewrite Ha. now apply not_capital_lower.
Qed.

Lemma eq_up_to_case_lower (s t : string) :
  eq_up_to_case s t = true <-> toLowerCase s = toLowerCase t.
Proof.
  revert t. induction s as [|a s IH]; intros [|b t]; cbn.
  - tauto.
  - split; discriminate.
  - split; discriminate.
  - rewrite andb_true_iff, <- lower_char_same_letter, IH. split.
    + intros [-> ->]. reflexivity.
    + intros E. injection E as E1 E2. auto.
Qed.

(** The test of [searchNotes] is the search of the term up to case. *)
Lemma matches_term_iff (term : string) (n : Note) :
  matches_term term n = true <-> ci_substring term (content n).
Proof.
  unfold matches_term, ci_substring. rewrite includes_iff. split.
  - intros (pre & post & E).
    apply toLowerCase_split in E. destruct E as (x & y & Hs & Hx & Hy).
    apply toLowerCase_split in Hy. destruct Hy as (m & z & -> & Hm & Hz).
    exists x, m, z. split; [exact Hs|]. now apply eq_up_to_case_lower.
  - intros (pre & mid & post & Hs & Hm). apply eq_up_to_case_lower in Hm.
    exists (toLowerCase pre), (toLowerCase post).
    now rewrite Hs, !toLowerCase_app, Hm.
Qed.

Lemma matches_empty_term (n : Note) : matches_term "" n = true.
Proof. unfold matches_term. cbn. now destruct (toLowerCase (content n)). Qed.

Lemma filter_all {A : Type} (P : A -> bool) (xs : list A) :
  (forall x, P x = true) -> filter P xs = xs.
Proof. intros HP. induction xs as [|x xs IH]; cbn; [reflexivity|]. now rewrite HP, IH. Qed.

(** ** [handleCommand] is [execute] after [parse] *)

Section Factoring.
Context {V TFile : Type} `{Vault V TFile}.

Lemma handleCommand_execute (text : string) :
  handleCommand text = execute (parse text).
Proof.
  unfold handleCommand, parse.
  destruct (startsWith _ "create note "); [reflexivity|].
  destruct (if startsWith _ "append to " then match_append text else None)
    as [[file content]|]; [reflexivity|].
  destruct (startsWith _ "read note "); [reflexivity|].
  destruct (String.eqb _ "list notes"); [reflexivity|].
  destruct (startsWith _ "search for "); reflexivity.
Qed.

(** The route, by what the [try] block does. *)
Lemma requestListener_post (body : option JsValue) (st : V) :
  requestListener (post_command body) st =
  match body with
  | None => (Returned bad_request, st)
  | Some v =>
      match call_handleCommand (text_of v) st with
      | (Returned result, st') => (Returned (ok_response result), st')
      | (Thrown _, st') => (Returned bad_request, st')
      end
  end.
Proof.
  unfold requestListener, post_command, try_catch, bind, JSON_parse. cbn.
  destruct body as [v|]; cbn; [|reflexivity].
  destruct (call_handleCommand (text_of v) st) as [[result|e] st']; reflexivity.
Qed.
End Factoring.

(** On the note store every command returns. *)
Lemma execute_outcome (cmd : Command) (st : NoteStore.t) :
  exists result, fst (execute cmd st) = Returned result.
Proof.
  destruct cmd as [name|name text|name| |term|text]; cbn [execute]; unfold bind.
  - destruct (lookup name st) as [n|] eqn:Hl.
    + rewrite (createNote_existing name st n Hl). cbn. eauto.
    + rewrite (createNote_new name st Hl). cbn. eauto.
  - destruct (lookup name st) as [n|] eqn:Hl.
    + destruct (lookup_split name st n Hl) as (pre & post & -> & Hpre & Hn).
      rewrite (appendTo_some name text pre post n Hpre Hn). cbn. eauto.
    + rewrite (appendTo_none name text st Hl). cbn. eauto.
  - rewrite readNote_lookup. cbn. eauto.
  - cbn. eauto.
  - rewrite searchNotes_filter. cbn. eauto.
  - cbn. eauto.
Qed.

(** On the note store no command throws: there the 400 response is the
    answer to a body that is no JSON, and to a [text] that is truthy and no
    string, and to nothing else. *)
Lemma bad_request_on_note_store (body : option JsValue) (st : NoteStore.t) :
  fst (requestListener (post_command body) st) = Returned bad_request <->
  body = None \/ exists v, body = Some v /\ forall s, text_of v <> JString s.
Proof.
  rewrite requestListener_post. destruct body as [v|].
  - unfold call_handleCommand.
    destruct (text_of v) as [ |b|x|s|items|props] eqn:Ht;
      try (cbn; split; [intros _; right; exists v; split;
                          [reflexivity | intros s'; rewrite Ht; discriminate]
                       | reflexivity]).
    cbv beta iota. rewrite handleCommand_execute.
    destruct (execute_outcome (parse s) st) as (result & Hr).
    destruct (execute (parse s) st) as [o st']. cbn in Hr. subst o. cbn.
    split; [discriminate|].
    intros [E|(v' & E & Hs)]; [discriminate|]. injection E as <-.
    elim (Hs s Ht).
  - cbn. split; [now left | reflexivity].
Qed.

(* ================================================================== *)
(** * The claims of the specification *)

(** ** The request server *)

Section RequestErrors.
Context {V TFile : Type} `{Vault V TFile}.

(** C1 (amended): for every POST /command request, the 400 response with
    body [{"error":"bad request"}] is produced exactly when something inside
    the [try] block throws: [JSON.parse] of the body fails, or the handling of
    the command throws, be it in the note store or in [handleCommand] itself.
    When the handling returns, the response is the 200 response that carries
    the result.  A [text] that is truthy and no string makes the handling
    throw, so it is answered with 400 too. *)
Theorem bad_request_iff_throw (body : option JsValue) (st : V) :
  (fst (requestListener (post_command body) st) = Returned bad_request <->
   body = None \/
   exists v e st', body = Some v /\ call_handleCommand (text_of v) st = (Thrown e, st'))
  /\
  (forall v result st',
     body = Some v -> call_handleCommand (text_of v) st = (Returned result, st') ->
     requestListener (post_command body) st = (Returned (ok_response result), st'))
  /\
  (forall v,
     body = Some v -> (forall s, text_of v <> JString s) ->
     requestListener (post_command body) st = (Returned bad_request, st)).
Proof.
  rewrite requestListener_post. repeat split.
  - destruct body as [v|]; [|now left].
    destruct (call_handleCommand (text_of v) st) as [[result|e] st'] eqn:Hc; cbn.
    + discriminate.
    + intros _. right. now exists v, e, st'.
  - intros [->|(v & e & st' & -> & Hc)]; [reflexivity|]. now rewrite Hc.
  - intros v result st' -> Hc. now rewrite Hc.
  - intros v -> Hs. unfold call_handleCommand.
    destruct (text_of v) as [ |b|x|s|items|props]; try reflexivity.
    now elim (Hs s).
Qed.
End RequestErrors.

(** The 200 response of a request that is handled. *)
Lemma bad_request_iff_throw_witness :
  requestListener (post_command (Some (JObject [("text", JString "list notes")])))
    [note "A" "x"; note "B" "y"]
  = (Returned (ok_response "A, B"), [note "A" "x"; note "B" "y"]).
Proof.
  apply (proj1 (proj2 (bad_request_iff_throw
           (Some (JObject [("text", JString "list notes")]))
           [note "A" "x"; note "B" "y"]))
           (JObject [("text", JString "list notes")]) "A, B").
  - reflexivity.
  - reflexivity.
Defined.

(** C1 as stated fails: the body [{"text": true}] is parsed by [JSON.parse],
    and the request is answered with 400 all the same; so is a command whose
    write the vault rejects. *)
Lemma parsed_body_bad_request :
  Some text_true <> None /\
  requestListener (post_command (Some text_true)) ([] : NoteStore.t)
  = (Returned bad_request, []) /\
  @requestListener _ _ rejecting_vault
    (post_command (Some (JObject [("text", JString "create note Foo")]))) []
  = (Returned bad_request, []).
Proof. repeat split. discriminate. Qed.

(** ** The parser *)

(** C2 (the code at the failing inputs): the keyword is looked for in the
    trimmed copy, and the argument is cut out of the text as it came, at the
    length of the keyword.  Two leading spaces move the cut into the keyword. *)
Theorem leading_space_shifts_argument :
  parse "  create note Foo" = CreateNote "e Foo" /\
  parse "  read note Foo" = ReadNote "e Foo" /\
  parse "  search for Foo" = SearchNotes "r Foo".
Proof. repeat split. Qed.

(** C3 (amended): for every input [append to <file>:<white space><content>],
    the keyword in any case, the file non-empty and without a colon or a line
    terminator, the content non-empty, not starting with white space and
    without a line terminator, [parse] yields [AppendToNote file content]: the
    content runs to the end of the input.  And whatever the input, a captured
    content is a non-empty end of the input that holds no line terminator. *)
Theorem append_content_to_end (kw file ws content : string) :
  toLowerCase kw = "append to " ->
  file <> "" -> all_chars title_char file = true ->
  all_chars isWhiteSpace ws = true ->
  content <> "" -> trimStart content = content ->
  no_line_terminator content = true ->
  parse (kw ++ file ++ ":" ++ ws ++ content) = AppendToNote file content /\
  (forall text f c,
     parse text = AppendToNote f c ->
     no_line_terminator c = true /\ c <> "" /\ exists pre, text = pre ++ c).
Proof.
  intros Hkw Hfile Htitle Hws Hne Hlead Hlt. split.
  - apply (parse_append_iff kw _ file content Hkw).
    now apply match_append_shape.
  - intros text f c Hp. apply (match_append_content text f c).
    now apply parse_append_inv.
Qed.

Lemma append_content_to_end_witness :
  parse ("Append TO " ++ "Foo" ++ ":" ++ "  " ++ "hello: world")
  = AppendToNote "Foo" "hello: world" /\
  (forall text f c,
     parse text = AppendToNote f c ->
     no_line_terminator c = true /\ c <> "" /\ exists pre, text = pre ++ c).
Proof.
  apply (append_content_to_end "Append TO " "Foo" "  " "hello: world").
  - reflexivity.
  - discriminate.
  - reflexivity.
  - reflexivity.
  - discriminate.
  - reflexivity.
  - reflexivity.
Defined.

(** C3 as stated fails: a content with a line feed in it is not captured,
    the command is not recognised. *)
Lemma line_feed_in_content :
  parse ("append to a: b" ++ LF ++ "c") = Unknown ("append to a: b" ++ LF ++ "c").
Proof. reflexivity. Qed.

(** C4 (the code at the failing input): the captures of the append pattern
    are not trimmed, white space before the colon stays in the title and
    white space at the end of the input stays in the content. *)
Theorem append_captures_not_trimmed :
  parse "append to Foo : hi " = AppendToNote "Foo " "hi " /\
  trim "Foo " <> "Foo " /\ trim "hi " <> "hi ".
Proof. repeat split; discriminate. Qed.

(** The other arguments are trimmed. *)
Lemma substring_arguments_trimmed (text : string) :
  match parse text with
  | CreateNote a | ReadNote a | SearchNotes a => trim a = a
  | _ => True
  end.
Proof.
  unfold parse.
  destruct (startsWith _ "create note "); [apply trim_idem|].
  destruct (if startsWith _ "append to " then match_append text else None)
    as [[file content]|]; [exact I|].
  destruct (startsWith _ "read note "); [apply trim_idem|].
  destruct (String.eqb _ "list notes"); [exact I|].
  destruct (startsWith _ "search for "); [apply trim_idem | exact I].
Qed.

(** C10 (amended): on a text that starts with the keyword, in any case, the
    command is an append exactly when some colon can delimit the title: at
    least one code unit and no line terminator in front of it, and after it a
    text that [\s*(.+)$] matches.  The delimiter is the earliest such colon,
    the title is the text in front of it, and the content is [content_after]
    the text behind it: that text with its leading white space skipped, or the
    last code unit when all of it is white space. *)
Theorem append_delimiter (kw rest f c : string) :
  toLowerCase kw = "append to " ->
  (parse (kw ++ rest) = AppendToNote f c <->
   exists n, f = take n rest /\ delimiter rest n c /\
             forall j c', j < n -> ~ delimiter rest j c').
Proof.
  intros Hkw. rewrite (parse_append_iff kw rest f c Hkw).
  apply match_append_spec, Hkw.
Qed.

Lemma append_delimiter_witness :
  exists n, "a" = take n "a: b: c" /\ delimiter "a: b: c" n "b: c" /\
            forall j c', j < n -> ~ delimiter "a: b: c" j c'.
Proof.
  apply (proj1 (append_delimiter "append to " "a: b: c" "a" "b: c" eq_refl)).
  reflexivity.
Defined.

(** C10 as stated fails: in [append to :a:  ], with two colons, the title is
    [:a] and not the empty text in front of the first colon, and the content
    is one space, which is not the text after the colon with its leading
    white space skipped. *)
Lemma white_space_after_colon :
  1 < count_char ":" "append to :a:  " /\
  parse "append to :a:  " = AppendToNote ":a" " " /\
  take 0 ":a:  " <> ":a" /\
  ~ (exists n, ":a" = take n ":a:  " /\
               String.get n ":a:  " = Some ":"%char /\
               " " = trimStart (substring (S n) ":a:  ")).
Proof.
  repeat split; try discriminate.
  - cbn. lia.
  - intros (n & Hf & Hg & Hc).
    destruct n as [|[|[|n]]]; cbn in Hf, Hg, Hc; discriminate.
Qed.

(** ** The executor, on the note store *)

(** C5: for every [AppendToNote name text]: when no stored note has exactly
    that title, [execute] leaves the store as it is, signals no error and
    returns [appended to <name>]; when the first note of that title has the
    content [A], its content becomes [A], a line feed and [text], nothing else
    changes, and the same string is returned. *)
Theorem append_to_note (name text : string) (st : NoteStore.t) :
  (absent name st ->
   execute (AppendToNote name text) st = (Returned ("appended to " ++ name), st))
  /\
  (forall pre n post,
     st = (pre ++ n :: post)%list -> absent name pre -> title n = name ->
     execute (AppendToNote name text) st =
     (Returned ("appended to " ++ name),
      (pre ++ note name (content n ++ LF ++ text) :: post)%list)).
Proof.
  split.
  - intros Ha. apply absent_lookup in Ha. cbn [execute]. unfold bind.
    now rewrite (appendTo_none name text st Ha).
  - intros pre n post -> Ha Hn. apply absent_lookup in Ha. cbn [execute]. unfold bind.
    now rewrite (appendTo_some name text pre post n Ha Hn).
Qed.

Lemma append_to_note_witness :
  execute (AppendToNote "Foo" "hello world") [note "Foo" "A"]
  = (Returned "appended to Foo", [note "Foo" ("A" ++ LF ++ "hello world")])
  /\
  execute (AppendToNote "Bar" "hello world") [note "Foo" "A"]
  = (Returned "appended to Bar", [note "Foo" "A"]).
Proof.
  split.
  - apply (proj2 (append_to_note "Foo" "hello world" [note "Foo" "A"])
             [] (note "Foo" "A") []).
    + reflexivity.
    + intros n [].
    + reflexivity.
  - apply (proj1 (append_to_note "Bar" "hello world" [note "Foo" "A"])).
    intros n [<-|[]]. discriminate.
Defined.

(** C6: for every [CreateNote name]: when a note of exactly that title is
    stored, [execute] leaves the store as it is and returns
    [created note <name>]; when none is, it adds a note of that title with
    empty content and returns the same string; so a second execution changes
    nothing and returns what the first one returned. *)
Theorem create_note_once (name : string) (st : NoteStore.t) :
  (forall n, In n st -> title n = name ->
     execute (CreateNote name) st = (Returned ("created note " ++ name), st))
  /\
  (absent name st ->
   execute (CreateNote name) st =
   (Returned ("created note " ++ name), (st ++ [note name ""])%list))
  /\
  execute (CreateNote name) (snd (execute (CreateNote name) st)) =
  execute (CreateNote name) st.
Proof.
  assert (Hex : forall st' m, lookup name st' = Some m ->
            execute (CreateNote name) st' = (Returned ("created note " ++ name), st')).
  { intros st' m Hl. cbn [execute]. unfold bind.
    now rewrite (createNote_existing name st' m Hl). }
  assert (Hnew : lookup name st = None ->
            execute (CreateNote name) st =
            (Returned ("created note " ++ name), (st ++ [note name ""])%list)).
  { intros Hl. cbn [execute]. unfold bind. now rewrite (createNote_new name st Hl). }
  repeat split.
  - intros n Hin Hn. destruct (present_lookup name st n Hin Hn) as (m & Hl). eauto.
  - intros Ha. apply Hnew, absent_lookup, Ha.
  - destruct (lookup name st) as [m|] eqn:Hl.
    + rewrite (Hex st m Hl). cbn [snd]. eauto.
    + rewrite (Hnew eq_refl). cbn [snd].
      apply (Hex _ (note name "")). now apply lookup_app_new.
Qed.

Lemma create_note_once_witness :
  execute (CreateNote "Foo") [note "Bar" "b"]
  = (Returned "created note Foo", [note "Bar" "b"; note "Foo" ""])
  /\
  execute (CreateNote "Foo") [note "Bar" "b"; note "Foo" "kept"]
  = (Returned "created note Foo", [note "Bar" "b"; note "Foo" "kept"]).
Proof.
  split.
  - apply (proj1 (proj2 (create_note_once "Foo" [note "Bar" "b"]))).
    intros n [<-|[]]. discriminate.
  - apply (proj1 (create_note_once "Foo" [note "Bar" "b"; note "Foo" "kept"])
             (note "Foo" "kept")).
    + right. left. reflexivity.
    + reflexivity.
Defined.

(** C7: for every [ReadNote name]: when a note of exactly that title is
    stored (the comparison of titles is the equality of strings), [execute]
    returns the whole content of the first one; when none is, it returns
    [note not found]. *)
Theorem read_note (name : string) (st : NoteStore.t) :
  (forall pre n post,
     st = (pre ++ n :: post)%list -> absent name pre -> title n = name ->
     execute (ReadNote name) st = (Returned (content n), st))
  /\
  (absent name st -> execute (ReadNote name) st = (Returned "note not found", st)).
Proof.
  split.
  - intros pre n post -> Ha Hn. apply absent_lookup in Ha.
    cbn [execute]. unfold bind. rewrite readNote_lookup.
    now rewrite (lookup_app_found name pre post n Ha Hn).
  - intros Ha. apply absent_lookup in Ha.
    cbn [execute]. unfold bind. rewrite readNote_lookup. now rewrite Ha.
Qed.

Lemma read_note_witness :
  execute (ReadNote "Foo") [note "foo" "lower"; note "Foo" "A"]
  = (Returned "A", [note "foo" "lower"; note "Foo" "A"])
  /\
  execute (ReadNote "FOO") [note "foo" "lower"; note "Foo" "A"]
  = (Returned "note not found", [note "foo" "lower"; note "Foo" "A"]).
Proof.
  split.
  - apply (proj1 (read_note "Foo" [note "foo" "lower"; note "Foo" "A"])
             [note "foo" "lower"] (note "Foo" "A") []).
    + reflexivity.
    + intros n [<-|[]]. discriminate.
    + reflexivity.
  - apply (proj2 (read_note "FOO" [note "foo" "lower"; note "Foo" "A"])).
    intros n [<-|[<-|[]]]; discriminate.
Defined.

(** C8 (amended): for every [SearchNotes term], [execute] returns the
    titles of exactly the notes whose content in lower case holds the term in
    lower case as a substring, in the order of the enumeration, joined by
    [", "]; on strings of code units below U+0100 these are the notes whose
    content holds the term up to the case of letters; the empty term matches
    every note. *)
Theorem search_notes (term : string) (st : NoteStore.t) :
  execute (SearchNotes term) st =
  (Returned (join ", " (titles (filter (matches_term term) st))), st)
  /\
  (forall n, matches_term term n = true <-> ci_substring term (content n))
  /\
  execute (SearchNotes "") st = (Returned (join ", " (titles st)), st).
Proof.
  assert (Hs : forall t, execute (SearchNotes t) st =
            (Returned (join ", " (titles (filter (matches_term t) st))), st)).
  { intros t. cbn [execute]. unfold bind. now rewrite searchNotes_filter. }
  repeat split.
  - apply Hs.
  - apply matches_term_iff.
  - apply matches_term_iff.
  - rewrite Hs, (filter_all (matches_term "") st matches_empty_term). reflexivity.
Qed.

(** On the code units below U+0100 the two models of [toLowerCase] agree. *)
Lemma wide_lower_unit (c : ascii) :
  N.eqb (N.of_nat (code c)) 931 = false /\
  Wide.lower_unit (N.of_nat (code c)) = N.of_nat (code (lower_char c)).
Proof. destruct c as [[] [] [] [] [] [] [] []]; vm_compute; split; reflexivity. Qed.

Lemma wide_toLowerCase (s : string) :
  Wide.toLowerCase (Wide.wide s) = Wide.wide (toLowerCase s).
Proof.
  unfold Wide.toLowerCase. generalize false.
  induction s as [|c s IH]; intros b; cbn [Wide.wide toLowerCase Wide.lower_from];
    [reflexivity|].
  destruct (wide_lower_unit c) as (H1 & H2). now rewrite H1, H2, IH.
Qed.

(** C8 as stated fails: the content U+039F U+0394 U+039F U+03A3 holds the
    term U+03A3 as it is, and the note is not found: in lower case the
    content ends with the final sigma U+03C2 and the term is the small sigma
    U+03C3. *)
Lemma final_sigma_not_found :
  Wide.includes Wide.odos Wide.sigma = true /\
  Wide.toLowerCase Wide.odos = [959; 948; 959; 962]%N /\
  Wide.toLowerCase Wide.sigma = [963]%N /\
  Wide.searchNotes Wide.sigma
    [{| Wide.title := Wide.wide "street"; Wide.content := Wide.odos |}] = [].
Proof. repeat split. Qed.

(** The search on a capital and a small letter of Latin-1, U+00C9 and
    U+00E9, and what [same_letter] holds of. *)
Example search_latin1_case :
  execute (SearchNotes ("CAF" ++ String (ascii_of_nat 201) ""))
    [note "A" ("un caf" ++ String (ascii_of_nat 233) ""); note "B" "cafe"]
  = (Returned "A",
     [note "A" ("un caf" ++ String (ascii_of_nat 233) ""); note "B" "cafe"]) /\
  same_letter "a" "A" = true /\
  same_letter (ascii_of_nat 201) (ascii_of_nat 233) = true /\
  same_letter "a" "b" = false /\
  same_letter (ascii_of_nat 215) (ascii_of_nat 247) = false /\
  eq_up_to_case "HeLLo" "hEllO" = true.
Proof. repeat split. Qed.

(** C9: [ReadNote], [ListNotes], [SearchNotes] and [Unknown] leave the store
    as it is; every command but [AppendToNote] leaves every stored note as it
    is, a new note coming last; and after every command the titles that were
    stored are still stored, at their places. *)
Theorem store_frame (cmd : Command) (st : NoteStore.t) :
  match cmd with
  | ReadNote _ | ListNotes | SearchNotes _ | Unknown _ => snd (execute cmd st) = st
  | AppendToNote _ _ => True
  | CreateNote _ => is_prefix_of st (snd (execute cmd st))
  end
  /\
  is_prefix_of (titles st) (titles (snd (execute cmd st))).
Proof.
  assert (Hrefl : forall A (xs : list A), is_prefix_of xs xs)
    by (intros A xs; exists []; now rewrite app_nil_r).
  destruct cmd as [name|name text|name| |term|text]; cbn [execute]; unfold bind.
  - destruct (lookup name st) as [n|] eqn:Hl.
    + rewrite (createNote_existing name st n Hl). cbn. auto.
    + rewrite (createNote_new name st Hl). cbn. split.
      * now exists [note name ""].
      * exists [name]. unfold titles. now rewrite map_app.
  - split; [exact I|].
    destruct (lookup name st) as [n|] eqn:Hl.
    + destruct (lookup_split name st n Hl) as (pre & post & -> & Hpre & Hn).
      rewrite (appendTo_some name text pre post n Hpre Hn). cbn.
      unfold titles. rewrite !map_app. cbn. rewrite Hn. apply Hrefl.
    + rewrite (appendTo_none name text st Hl). cbn. apply Hrefl.
  - rewrite readNote_lookup. cbn. auto.
  - cbn. auto.
  - rewrite searchNotes_filter. cbn. auto.
  - cbn. auto.
Qed.

(** ** Examples of section 8 of the specification *)

Example parse_create : parse "create note Foo" = CreateNote "Foo".
Proof. reflexivity. Qed.

Example parse_append : parse "append to Foo: hello world" = AppendToNote "Foo" "hello world".
Proof. reflexivity. Qed.

Example parse_append_colons : parse "append to a: b: c" = AppendToNote "a" "b: c".
Proof. reflexivity. Qed.

Example parse_append_no_colon : parse "append to Foo" = Unknown "append to Foo".
Proof. reflexivity. Qed.

Example parse_list : parse " List Notes " = ListNotes.
Proof. reflexivity. Qed.

Example parse_one_leading_space : parse " create note Foo" = CreateNote "Foo".
Proof. reflexivity. Qed.

Example parse_keyword_alone : parse "create note   " = Unknown "create note   ".
Proof. reflexivity. Qed.

Example run_create :
  run "create note Foo" [] = (Returned "created note Foo", [note "Foo" ""]).
Proof. reflexivity. Qed.

Example run_append :
  run "append to Foo: hello world" [note "Foo" "A"]
  = (Returned "appended to Foo", [note "Foo" ("A" ++ LF ++ "hello world")]).
Proof. reflexivity. Qed.

Example run_read_case :
  run "read note foo" [note "Foo" "A"] = (Returned "note not found", [note "Foo" "A"]).
Proof. reflexivity. Qed.

Example run_list_empty : run "list notes" [] = (Returned "", []).
Proof. reflexivity. Qed.

Example run_search :
  run "search for HELLO" [note "A" "say Hello"; note "B" "y"; note "C" "hello"]
  = (Returned "A, C", [note "A" "say Hello"; note "B" "y"; note "C" "hello"]).
Proof. reflexivity. Qed.

Example get_command_is_404 :
  requestListener {| method := "GET"; url := "/command"; parsed := None |}
    ([] : NoteStore.t)
  = (Returned {| statusCode := 404; contentType := None; written := "" |}, []).
Proof. reflexivity. Qed.

Example malformed_body_is_400 :
  requestListener (post_command None) ([] : NoteStore.t) = (Returned bad_request, []).
Proof. reflexivity. Qed.

(* ================================================================== *)
(** * Further properties of the code *)

(** ** White space at the ends *)

Lemma all_chars_app (P : ascii -> bool) (a b : string) :
  all_chars P (a ++ b) = all_chars P a && all_chars P b.
Proof. induction a; simpl; [reflexivity|]. now rewrite IHa, andb_assoc. Qed.

Lemma trimStart_blank (s : string) :
  trimStart s = "" -> all_chars isWhiteSpace s = true.
Proof.
  induction s as [|c s IH]; simpl; [reflexivity|].
  destruct (isWhiteSpace c); [auto | discriminate].
Qed.

Lemma trimEnd_app_ws (a b : string) :
  all_chars isWhiteSpace b = true -> trimEnd (a ++ b) = trimEnd a.
Proof.
  intros Hb. induction a as [|c a IH]; cbn [append trimEnd].
  - now apply trimEnd_empty.
  - now rewrite IH.
Qed.

Lemma trimEnd_decomp (s : string) :
  exists w, s = trimEnd s ++ w /\ all_chars isWhiteSpace w = true.
Proof.
  induction s as [|c s (w & Hs & Hw)]; [now exists ""|]. cbn [trimEnd].
  destruct (trimEnd s) as [|d r] eqn:E.
  - destruct (isWhiteSpace c) eqn:Hc.
    + exists (String c s). split; [reflexivity|]. cbn. rewrite Hc.
      apply trimEnd_empty, E.
    + exists s. split; [reflexivity|]. apply trimEnd_empty, E.
  - exists w. split; [cbn in Hs |- *; congruence | exact Hw].
Qed.

Lemma trimEnd_last (s : string) (c : ascii) :
  last_char (trimEnd s) = Some c -> isWhiteSpace c = false.
Proof.
  induction s as [|a s IH]; cbn [trimEnd]; [discriminate|].
  destruct (trimEnd s) as [|d r] eqn:E.
  - destruct (isWhiteSpace a) eqn:Ha; cbn; [discriminate|]. congruence.
  - rewrite last_char_cons by discriminate. exact IH.
Qed.

Lemma last_char_app (a b : string) :
  b <> "" -> last_char (a ++ b) = last_char b.
Proof.
  intros Hb. induction a as [|c a IH]; [reflexivity|]. cbn [append].
  rewrite last_char_cons; [exact IH|].
  destruct a; [exact Hb | discriminate].
Qed.

(** No end of a right-trimmed string is blank. *)
Lemma trimEnd_end_not_blank (s a b : string) :
  trimEnd s = a ++ b -> b <> "" -> all_chars isWhiteSpace b = false.
Proof.
  intros Hs Hb. destruct (all_chars isWhiteSpace b) eqn:E; [|reflexivity].
  destruct b as [|c b]; [contradiction|].
  destruct (last_char (String c b)) as [l|] eqn:Hl;
    [|now apply last_char_cons_some in Hl].
  pose proof (last_char_all isWhiteSpace _ l E Hl) as Hws.
  rewrite <- (last_char_app a (String c b)) in Hl by discriminate.
  rewrite <- Hs in Hl. apply trimEnd_last in Hl. congruence.
Qed.

Lemma trim_blank (s : string) : trim s = "" -> all_chars isWhiteSpace s = true.
Proof.
  unfold trim. intros Ht. apply trimStart_blank in Ht.
  destruct (trimEnd_decomp s) as (w & Hs & Hw).
  rewrite Hs, all_chars_app, Ht, Hw. reflexivity.
Qed.

Lemma substring_app_ge (n : nat) (a b : string) :
  n <= String.length a -> exists a', substring n (a ++ b) = a' ++ b.
Proof.
  revert a. induction n as [|n IH]; intros a Hn.
  - exists a. now destruct (a ++ b).
  - destruct a as [|c a]; cbn in Hn; [lia|]. cbn. apply IH. lia.
Qed.

Lemma substring_toLowerCase (n : nat) (s : string) :
  substring n (toLowerCase s) = toLowerCase (substring n s).
Proof.
  revert s. induction n as [|n IH]; intros s; [now destruct s|].
  destruct s; cbn; [reflexivity | apply IH].
Qed.

(** When the trimmed copy starts with a keyword that ends with a space, the
    text after the length of the keyword is not blank. *)
Lemma argument_not_blank (text p0 : string) :
  startsWith (trim (toLowerCase text)) (p0 ++ " ") = true ->
  trim (substring (String.length (p0 ++ " ")) text) <> "".
Proof.
  unfold startsWith. intros Hp Ht. apply trim_blank in Ht.
  apply prefix_iff in Hp. destruct Hp as (x & Hx).
  destruct (trimStart_suffix (trimEnd (toLowerCase text))) as (w & Hw).
  fold (trim (toLowerCase text)) in Hw. rewrite Hx in Hw.
  assert (Hend : all_chars isWhiteSpace (" " ++ x) = false).
  { apply (trimEnd_end_not_blank (toLowerCase text) (w ++ p0)); [|discriminate].
    rewrite Hw. now rewrite !append_assoc. }
  destruct (trimEnd_decomp (toLowerCase text)) as (w' & Hl & _).
  rewrite Hw in Hl.
  assert (Hl' : toLowerCase text = (w ++ p0 ++ " ") ++ (x ++ w'))
    by (rewrite Hl; now rewrite !append_assoc).
  destruct (substring_app_ge (String.length (p0 ++ " ")) (w ++ p0 ++ " ") (x ++ w'))
    as (a' & Ha).
  { rewrite !string_length_app. lia. }
  rewrite <- all_ws_lower, <- substring_toLowerCase, Hl', Ha in Ht.
  rewrite !all_chars_app in Ht.
  change (all_chars isWhiteSpace (" " ++ x))
    with (true && all_chars isWhiteSpace x) in Hend.
  cbn [andb] in Hend.
  rewrite Hend in Ht. rewrite andb_false_r in Ht. discriminate.
Qed.

(** ** The parser, outside the claims *)

(** X1: no argument that [parse] yields is empty: the title of a create or
    a read and the term of a search hold something else than white space,
    and the title and the content of an append hold at least one code unit,
    the title without a line terminator. *)
Theorem arguments_not_empty (text : string) :
  match parse text with
  | CreateNote a | ReadNote a | SearchNotes a => a <> ""
  | AppendToNote f c => f <> "" /\ no_line_terminator f = true /\ c <> ""
  | ListNotes | Unknown _ => True
  end.
Proof.
  destruct (parse text) as [a|f c|a| |a|t] eqn:Hp; try exact I.
  - unfold parse in Hp.
    destruct (startsWith _ "create note ") eqn:Hs.
    + injection Hp as <-. apply (argument_not_blank text "create note"), Hs.
    + destruct (if startsWith _ "append to " then match_append text else None)
        as [[f c]|]; [discriminate|].
      destruct (startsWith _ "read note "); [discriminate|].
      destruct (String.eqb _ "list notes"); [discriminate|].
      destruct (startsWith _ "search for "); discriminate.
  - apply parse_append_inv in Hp. pose proof (match_append_content text f c Hp) as Hc.
    unfold match_append in Hp. apply lit_inv in Hp.
    destruct Hp as (kw & rest & _ & Hl). apply lazy_plus_spec in Hl.
    destruct Hl as (n & -> & (Hn & Hlt & Hg & _) & _). cbn [append].
    repeat split; [|exact Hlt | apply Hc].
    destruct n; [lia|]. destruct rest; [discriminate | cbn; discriminate].
  - unfold parse in Hp.
    destruct (startsWith _ "create note "); [discriminate|].
    destruct (if startsWith _ "append to " then match_append text else None)
      as [[f c]|]; [discriminate|].
    destruct (startsWith _ "read note ") eqn:Hs.
    + injection Hp as <-. apply (argument_not_blank text "read note"), Hs.
    + destruct (String.eqb _ "list notes"); [discriminate|].
      destruct (startsWith _ "search for "); discriminate.
  - unfold parse in Hp.
    destruct (startsWith _ "create note "); [discriminate|].
    destruct (if startsWith _ "append to " then match_append text else None)
      as [[f c]|]; [discriminate|].
    destruct (startsWith _ "read note "); [discriminate|].
    destruct (String.eqb _ "list notes"); [discriminate|].
    destruct (startsWith _ "search for ") eqn:Hs; [|discriminate].
    injection Hp as <-. apply (argument_not_blank text "search for"), Hs.
Qed.

(** X2: a keyword with nothing but white space after it is no command, and
    neither is a blank text: [trim] takes the space that ends the keyword. *)
Theorem keyword_alone_unknown (kw ws : string) :
  In (toLowerCase kw) [""; "create note "; "append to "; "read note "; "search for "] ->
  all_chars isWhiteSpace ws = true ->
  parse (kw ++ ws) = Unknown (kw ++ ws).
Proof.
  intros Hkw Hws. unfold parse, trim.
  rewrite toLowerCase_app, trimEnd_app_ws by (now rewrite all_ws_lower).
  cbn in Hkw. destruct Hkw as [<-|[<-|[<-|[<-|[<-|[]]]]]]; reflexivity.
Qed.

Lemma keyword_alone_unknown_witness :
  parse ("Create Note " ++ "  ") = Unknown ("Create Note " ++ "  ").
Proof.
  apply (keyword_alone_unknown "Create Note " "  ").
  - right. left. reflexivity.
  - reflexivity.
Defined.

(** X3: the list command is recognised exactly when the text, in lower case
    and trimmed, is [list notes]. *)
Theorem list_notes_exactly (text : string) :
  parse text = ListNotes <-> trim (toLowerCase text) = "list notes".
Proof.
  unfold parse. split.
  - destruct (startsWith _ "create note "); [discriminate|].
    destruct (if startsWith _ "append to " then match_append text else None)
      as [[f c]|]; [discriminate|].
    destruct (startsWith _ "read note "); [discriminate|].
    destruct (String.eqb_spec (trim (toLowerCase text)) "list notes"); [auto|].
    destruct (startsWith _ "search for "); discriminate.
  - intros ->. reflexivity.
Qed.

(** X4: a substring command without leading white space: when the text is a
    keyword, in any case, and then something that is not blank, the argument
    is what follows the keyword, trimmed, in its own case. *)
Theorem keyword_argument (kw rest : string) :
  all_chars isWhiteSpace rest = false ->
  (toLowerCase kw = "create note " -> parse (kw ++ rest) = CreateNote (trim rest)) /\
  (toLowerCase kw = "read note " -> parse (kw ++ rest) = ReadNote (trim rest)) /\
  (toLowerCase kw = "search for " -> parse (kw ++ rest) = SearchNotes (trim rest)).
Proof.
  intros Hrest.
  assert (Hne : trimEnd (toLowerCase rest) <> "").
  { intros E. apply trimEnd_empty in E. rewrite all_ws_lower in E. congruence. }
  repeat split; intros Hkw.
  - now apply parse_create_note.
  - now apply parse_read_note.
  - now apply parse_search_for.
Qed.

Lemma keyword_argument_witness :
  parse ("CREATE note " ++ " My Note ") = CreateNote "My Note" /\
  parse ("Read Note " ++ "My Note") = ReadNote "My Note" /\
  parse ("search FOR " ++ "Hello  ") = SearchNotes "Hello".
Proof.
  split; [|split].
  - apply (proj1 (keyword_argument "CREATE note " " My Note " eq_refl) eq_refl).
  - apply (proj1 (proj2 (keyword_argument "Read Note " "My Note" eq_refl)) eq_refl).
  - apply (proj2 (proj2 (keyword_argument "search FOR " "Hello  " eq_refl)) eq_refl).
Defined.

Lemma get_count (a : ascii) (s : string) (k : nat) :
  String.get k s = Some a -> 0 < count_char a s.
Proof.
  revert k. induction s as [|c s IH]; intros k; cbn; [discriminate|].
  destruct k.
  - intros E. injection E as ->. rewrite Ascii.eqb_refl. lia.
  - intros E. apply IH in E. lia.
Qed.

Lemma lower_keyword_head (kw rest : string) (c : ascii) (p : string) :
  toLowerCase kw = String c p -> isWhiteSpace c = false ->
  exists tl, trim (toLowerCase (kw ++ rest)) = String c tl.
Proof.
  intros Hkw Hc. unfold trim. rewrite toLowerCase_app, Hkw.
  cbn [append]. rewrite trimEnd_cons by assumption.
  cbn. rewrite Hc. eauto.
Qed.

Lemma append_no_colon (kw rest : string) :
  toLowerCase kw = "append to " -> count_char ":" rest = 0 ->
  parse (kw ++ rest) = Unknown (kw ++ rest).
Proof.
  intros Hkw Hcolon.
  assert (Hm : match_append (kw ++ rest) = None).
  { destruct (match_append (kw ++ rest)) as [[f c]|] eqn:Hm; [|reflexivity].
    apply (match_append_spec kw rest f c Hkw) in Hm.
    destruct Hm as (n & _ & (_ & _ & Hg & _) & _).
    apply get_count in Hg. lia. }
  destruct (lower_keyword_head kw rest "a" "ppend to " Hkw eq_refl) as (tl & Hl).
  unfold parse. rewrite Hl, Hm.
  change (startsWith (String "a" tl) "create note ") with false. cbv iota.
  replace (if startsWith (String "a" tl) "append to " then None else None)
    with (@None (string * string)) by (now destruct (startsWith _ _)).
  reflexivity.
Qed.

Lemma find_absent {A : Type} (P : A -> bool) (xs : list A) :
  (forall x, In x xs -> P x = false) -> find P xs = None.
Proof.
  induction xs as [|x xs IH]; intros HP; cbn; [reflexivity|].
  rewrite (HP x) by (now left). apply IH. intros y Hy. apply HP. now right.
Qed.

Lemma find_present {A : Type} (P : A -> bool) (xs : list A) (x : A) :
  In x xs -> P x = true -> exists y, find P xs = Some y.
Proof.
  intros Hin HP. destruct (find P xs) as [y|] eqn:E; [eauto|].
  rewrite (find_none P xs E x Hin) in HP. discriminate.
Qed.

Lemma lower_char_idem (c : ascii) : lower_char (lower_char c) = lower_char c.
Proof. all_ascii c. Qed.

Lemma toLowerCase_idem (s : string) : toLowerCase (toLowerCase s) = toLowerCase s.
Proof. induction s as [|c s IH]; cbn; [reflexivity|]. now rewrite lower_char_idem, IH. Qed.

(** ** The executor and the listener, on any vault *)

Section AnyVault.
Context {V TFile : Type} `{Vault V TFile}.

(** X5: the append keyword with no colon after it is no command: the answer
    is [unknown command] and the vault is not called. *)
Theorem append_without_colon (kw rest : string) (st : V) :
  toLowerCase kw = "append to " -> count_char ":" rest = 0 ->
  handleCommand (kw ++ rest) st = (Returned "unknown command", st).
Proof.
  intros Hkw Hcolon.
  now rewrite handleCommand_execute, (append_no_colon kw rest Hkw Hcolon).
Qed.

(** X6: when no file of the vault has the basename, an append and a read
    answer without a call of the vault: the vault is as it was and nothing is
    thrown, whatever the vault would do. *)
Theorem absent_file_untouched (name text : string) (st : V) :
  (forall f, In f (getMarkdownFiles st) -> basename f <> name) ->
  execute (AppendToNote name text) st = (Returned ("appended to " ++ name), st) /\
  execute (ReadNote name) st = (Returned "note not found", st).
Proof.
  intros Habs.
  assert (Hf : find (fun f => String.eqb (basename f) name) (getMarkdownFiles st) = None).
  { apply find_absent. intros f Hin. apply String.eqb_neq. now apply Habs. }
  split; cbn [execute]; unfold bind, appendTo, readNote, bind, getFileByName;
    now rewrite Hf.
Qed.

(** X7: when a file of the vault has the basename, a create answers without
    a call of [vault.create]: the vault is as it was and nothing is thrown. *)
Theorem existing_file_not_created (name : string) (st : V) (f : TFile) :
  In f (getMarkdownFiles st) -> basename f = name ->
  execute (CreateNote name) st = (Returned ("created note " ++ name), st).
Proof.
  intros Hin Hf.
  destruct (find_present (fun f => String.eqb (basename f) name) _ f Hin) as (g & Hg).
  { now apply String.eqb_eq. }
  cbn [execute]. unfold bind, createNote, bind, getFileByName. now rewrite Hg.
Qed.

(** X9: the 404 response is the answer to exactly the requests that are not
    POST /command, and such a request leaves the vault as it was. *)
Theorem other_routes_not_found (req : Request) (st : V) :
  (fst (requestListener req st) = Returned not_found <->
   method req <> "POST" \/ url req <> "/command") /\
  (method req <> "POST" \/ url req <> "/command" -> snd (requestListener req st) = st).
Proof.
  unfold requestListener.
  destruct (String.eqb_spec (method req) "POST") as [Hm|Hm];
    destruct (String.eqb_spec (url req) "/command") as [Hu|Hu]; cbn [andb];
    try (split; [split; [intros _; tauto | reflexivity] | reflexivity]).
  split; [|tauto]. split; [|tauto].
  unfold try_catch, bind, JSON_parse.
  destruct (parsed req) as [v|]; cbn; [|discriminate].
  destruct (call_handleCommand (text_of v) st) as [[result|e] st']; cbn; discriminate.
Qed.

(** X10: a body without a [text], or with a [text] that is falsy (null,
    false, 0, the empty string), is handled as the empty command: the answer
    is the 200 response with [unknown command], and the vault is not called. *)
Theorem missing_text_unknown_command (body : JsValue) (st : V) :
  no_text body = true ->
  requestListener (post_command (Some body)) st =
  (Returned (ok_response "unknown command"), st).
Proof.
  intros Hno. rewrite requestListener_post.
  assert (Ht : text_of body = JString "").
  { unfold text_of, no_text in *.
    destruct body as [ |b|x|s|items|props]; try reflexivity.
    destruct (get_prop "text" props) as [v|]; [|reflexivity].
    apply negb_true_iff in Hno. now rewrite Hno. }
  rewrite Ht. reflexivity.
Qed.

(** X11: the search does not depend on the case of the term. *)
Theorem search_term_case (term : string) (st : V) :
  execute (SearchNotes (toLowerCase term)) st = execute (SearchNotes term) st.
Proof.
  cbn [execute]. unfold bind, searchNotes.
  assert (Hloop : forall files results st0,
            searchLoop (toLowerCase term) files results st0 =
            searchLoop term files results st0).
  { induction files as [|f files IH]; intros results st0; [reflexivity|].
    cbn [searchLoop]. unfold bind.
    destruct (vault_read f st0) as [[c|e] st1]; [|reflexivity].
    rewrite toLowerCase_idem. apply IH. }
  now rewrite Hloop.
Qed.
End AnyVault.

Lemma append_without_colon_witness :
  handleCommand ("Append To " ++ "Foo hello") [note "Foo" "A"]
  = (Returned "unknown command", [note "Foo" "A"]).
Proof. apply (append_without_colon "Append To " "Foo hello"); reflexivity. Defined.

Lemma absent_file_untouched_witness :
  @execute _ _ rejecting_vault (AppendToNote "Bar" "x") [note "Foo" "A"]
  = (Returned "appended to Bar", [note "Foo" "A"]) /\
  @execute _ _ rejecting_vault (ReadNote "Bar") [note "Foo" "A"]
  = (Returned "note not found", [note "Foo" "A"]).
Proof.
  apply (@absent_file_untouched _ _ rejecting_vault "Bar" "x" [note "Foo" "A"]).
  intros f [<-|[]]. discriminate.
Defined.

Lemma existing_file_not_created_witness :
  @execute _ _ rejecting_vault (CreateNote "Foo") [note "Foo" "A"]
  = (Returned "created note Foo", [note "Foo" "A"]).
Proof.
  apply (@existing_file_not_created _ _ rejecting_vault "Foo" [note "Foo" "A"]
           {| pos := 0; ref_name := "Foo" |}).
  - left. reflexivity.
  - reflexivity.
Defined.

Lemma other_routes_not_found_witness :
  snd (requestListener {| method := "GET"; url := "/command"; parsed := None |}
         [note "Foo" "A"]) = [note "Foo" "A"].
Proof.
  apply (proj2 (other_routes_not_found
                  {| method := "GET"; url := "/command"; parsed := None |}
                  [note "Foo" "A"])).
  left. discriminate.
Defined.

Lemma missing_text_unknown_command_witness :
  requestListener (post_command (Some (JObject [("txt", JString "list notes")])))
    [note "Foo" "A"]
  = (Returned (ok_response "unknown command"), [note "Foo" "A"]).
Proof.
  apply (missing_text_unknown_command (JObject [("txt", JString "list notes")])).
  reflexivity.
Defined.

(** ** How the commands compose, on the note store *)

Lemma lookup_app (name : string) (a b : NoteStore.t) :
  lookup name (a ++ b)%list =
  match lookup name a with Some n => Some n | None => lookup name b end.
Proof.
  unfold lookup. induction a as [|m a IH]; cbn; [reflexivity|].
  destruct (String.eqb (title m) name); [reflexivity | exact IH].
Qed.

Lemma create_state (name : string) (st : NoteStore.t) :
  snd (execute (CreateNote name) st) =
  match lookup name st with Some _ => st | None => (st ++ [note name ""])%list end.
Proof.
  cbn [execute]. unfold bind. destruct (lookup name st) as [n|] eqn:Hl.
  - now rewrite (createNote_existing name st n Hl).
  - now rewrite (createNote_new name st Hl).
Qed.

Lemma append_state_some (name text : string) (pre post : NoteStore.t) (n : Note) :
  lookup name pre = None -> title n = name ->
  snd (execute (AppendToNote name text) (pre ++ n :: post)%list) =
  (pre ++ note name (content n ++ LF ++ text) :: post)%list.
Proof.
  intros Hpre Hn. cbn [execute]. unfold bind.
  now rewrite (appendTo_some name text pre post n Hpre Hn).
Qed.

Lemma append_state_none (name text : string) (st : NoteStore.t) :
  lookup name st = None -> snd (execute (AppendToNote name text) st) = st.
Proof.
  intros Hl. cbn [execute]. unfold bind. now rewrite (appendTo_none name text st Hl).
Qed.

Lemma read_result (name : string) (st : NoteStore.t) :
  fst (execute (ReadNote name) st) =
  Returned (match lookup name st with Some n => content n | None => "note not found" end).
Proof.
  cbn [execute]. unfold bind. rewrite readNote_lookup. cbn.
  now destruct (lookup name st).
Qed.

Lemma refs_names (st : NoteStore.t) (i : nat) :
  map ref_name (NoteStore.refs_from i st) = titles st.
Proof. revert i. induction st as [|n st IH]; intros i; cbn; [reflexivity|]. now rewrite IH. Qed.

Lemma absent_titles (name : string) (st : NoteStore.t) :
  lookup name st = None -> ~ In name (titles st).
Proof.
  intros Hl Hin. apply absent_lookup in Hl. unfold titles in Hin.
  apply in_map_iff in Hin. destruct Hin as (n & Hn & Hin). exact (Hl n Hin Hn).
Qed.

(** X12: a read after a create, of the same title: the content that the
    note had when it was stored before, for a create never overwrites, and
    the empty content when the create added the note. *)
Theorem create_then_read (name : string) (st : NoteStore.t) :
  fst (execute (ReadNote name) (snd (execute (CreateNote name) st))) =
  Returned (match lookup name st with Some n => content n | None => "" end).
Proof.
  rewrite read_result, create_state.
  destruct (lookup name st) as [n|] eqn:Hl.
  - now rewrite Hl.
  - now rewrite (lookup_app_new name st (note name "") Hl eq_refl).
Qed.

(** X13: a read after an append, of the same title: the former content, a
    line feed and the text when the note was stored; and [note not found] when
    it was not, for an append never adds a note. *)
Theorem append_then_read (name text : string) (st : NoteStore.t) :
  fst (execute (ReadNote name) (snd (execute (AppendToNote name text) st))) =
  Returned (match lookup name st with
            | Some n => content n ++ LF ++ text
            | None => "note not found"
            end).
Proof.
  rewrite read_result.
  destruct (lookup name st) as [n|] eqn:Hl.
  - destruct (lookup_split name st n Hl) as (pre & post & -> & Hpre & Hn).
    rewrite (append_state_some name text pre post n Hpre Hn).
    now rewrite (lookup_app_found name pre post
                   (note name (content n ++ LF ++ text)) Hpre eq_refl).
  - rewrite (append_state_none name text st Hl). now rewrite Hl.
Qed.

(** X14: a command that does not write to a title leaves what a read of
    that title returns. *)
Theorem other_title_untouched (cmd : Command) (name : string) (st : NoteStore.t) :
  ~ targets cmd name ->
  fst (execute (ReadNote name) (snd (execute cmd st))) = fst (execute (ReadNote name) st).
Proof.
  intros Hcmd. rewrite !read_result. f_equal.
  assert (Hl : lookup name (snd (execute cmd st)) = lookup name st); [|now rewrite Hl].
  destruct cmd as [t|t text|t| |term|u]; cbn [targets] in Hcmd.
  - rewrite create_state. destruct (lookup t st); [reflexivity|].
    rewrite lookup_app. destruct (lookup name st); [reflexivity|].
    unfold lookup. cbn. apply String.eqb_neq in Hcmd. now rewrite Hcmd.
  - destruct (lookup t st) as [n|] eqn:Ht.
    + destruct (lookup_split t st n Ht) as (pre & post & -> & Hpre & Hn).
      rewrite (append_state_some t text pre post n Hpre Hn).
      rewrite !lookup_app. destruct (lookup name pre); [reflexivity|].
      unfold lookup. cbn. rewrite Hn.
      apply String.eqb_neq in Hcmd. now rewrite Hcmd.
    + now rewrite (append_state_none t text st Ht).
  - cbn [execute]. unfold bind. now rewrite readNote_lookup.
  - reflexivity.
  - cbn [execute]. unfold bind. now rewrite searchNotes_filter.
  - reflexivity.
Qed.

Lemma other_title_untouched_witness :
  fst (execute (ReadNote "Foo")
         (snd (execute (AppendToNote "Bar" "x") [note "Foo" "A"; note "Bar" "B"])))
  = fst (execute (ReadNote "Foo") [note "Foo" "A"; note "Bar" "B"]).
Proof.
  apply (other_title_untouched (AppendToNote "Bar" "x") "Foo").
  cbn. discriminate.
Defined.

(** X15: when the titles of the store are pairwise different, they are so
    after every command: a create adds a title only when it is not stored. *)
Theorem titles_stay_unique (cmd : Command) (st : NoteStore.t) :
  NoDup (titles st) -> NoDup (titles (snd (execute cmd st))).
Proof.
  intros Hnd. destruct cmd as [t|t text|t| |term|u].
  - rewrite create_state. destruct (lookup t st) eqn:Hl; [exact Hnd|].
    unfold titles. rewrite map_app. cbn.
    apply NoDup_app; [exact Hnd | repeat constructor; intros [] |].
    intros a Ha [E|[]]. subst a. exact (absent_titles t st Hl Ha).
  - destruct (lookup t st) as [n|] eqn:Ht.
    + destruct (lookup_split t st n Ht) as (pre & post & -> & Hpre & Hn).
      rewrite (append_state_some t text pre post n Hpre Hn).
      unfold titles in *. rewrite map_app in *. cbn in *. now rewrite Hn in Hnd.
    + now rewrite (append_state_none t text st Ht).
  - cbn [execute]. unfold bind. now rewrite readNote_lookup.
  - exact Hnd.
  - cbn [execute]. unfold bind. now rewrite searchNotes_filter.
  - exact Hnd.
Qed.

Lemma titles_stay_unique_witness :
  NoDup (titles (snd (execute (CreateNote "Foo") [note "Foo" "A"; note "Bar" "B"]))).
Proof.
  apply (titles_stay_unique (CreateNote "Foo") [note "Foo" "A"; note "Bar" "B"]).
  repeat constructor; cbn; intuition discriminate.
Defined.

(** X16: the list command returns the titles of all notes, in the order of
    the enumeration, joined by [", "], so the empty string for an empty store,
    and leaves the store as it is. *)
Theorem list_notes (st : NoteStore.t) :
  execute ListNotes st = (Returned (join ", " (titles st)), st).
Proof. cbn. now rewrite refs_names. Qed.

(** X17: on the note store a [text] that is a string is always answered
    with 200: the response carries what the command returns, and the store is
    the one that the command leaves. *)
Theorem string_text_is_handled (props : list (string * JsValue)) (s : string)
        (st : NoteStore.t) :
  get_prop "text" props = Some (JString s) ->
  exists result st',
    execute (parse s) st = (Returned result, st') /\
    requestListener (post_command (Some (JObject props))) st =
    (Returned (ok_response result), st').
Proof.
  intros Hp. rewrite requestListener_post.
  assert (Ht : text_of (JObject props) = JString s).
  { unfold text_of. rewrite Hp. cbn.
    destruct (String.eqb_spec s ""); [now subst | reflexivity]. }
  rewrite Ht. cbn [call_handleCommand]. rewrite handleCommand_execute.
  destruct (execute_outcome (parse s) st) as (result & Hr).
  destruct (execute (parse s) st) as [o st']. cbn in Hr. subst o.
  now exists result, st'.
Qed.

Lemma string_text_is_handled_witness :
  exists result st',
    execute (parse "read note Foo") [note "Foo" "A"] = (Returned result, st') /\
    requestListener
      (post_command (Some (JObject [("text", JString "read note Foo")])))
      [note "Foo" "A"]
    = (Returned (ok_response result), st').
Proof.
  apply (string_text_is_handled [("text", JString "read note Foo")] "read note Foo").
  reflexivity.
Defined.

(** ** The settings *)

Lemma digits_from_stop (acc : Z) (rest : string) :
  no_leading_digit rest = true -> digits_from acc rest = acc.
Proof.
  destruct rest as [|c rest]; [reflexivity|]. unfold no_leading_digit, is_digit. cbn.
  destruct (digit c); [discriminate | reflexivity].
Qed.

Lemma digits_from_uint (d : Decimal.uint) (acc : nat) (rest : string) :
  no_leading_digit rest = true ->
  digits_from (Z.of_nat acc) (DecimalString.NilEmpty.string_of_uint d ++ rest) =
  Z.of_nat (Nat.of_uint_acc d acc).
Proof.
  intros Hrest. revert acc.
  induction d as [|d IH|d IH|d IH|d IH|d IH|d IH|d IH|d IH|d IH|d IH]; intros acc;
    [now apply digits_from_stop|..];
    cbn [DecimalString.NilEmpty.string_of_uint append digits_from Nat.of_uint_acc];
    rewrite Nat.tail_mul_spec;
    match goal with
    | |- context [digit ?c] =>
        let v := eval vm_compute in (digit c) in change (digit c) with v
    end;
    cbv iota;
    match goal with
    | |- digits_from ?z _ = Z.of_nat (Nat.of_uint_acc _ ?m) =>
        replace z with (Z.of_nat m) by lia
    end;
    apply IH.
Qed.

Lemma to_uint_not_nil (n : nat) : Nat.to_uint n <> Decimal.Nil.
Proof.
  rewrite <- (DecimalNat.Unsigned.of_to n) at 1.
  rewrite DecimalNat.Unsigned.to_of. apply DecimalFacts.unorm_nonnil.
Qed.

Lemma decimal_head (n : nat) :
  exists c s, decimal n = String c s /\ is_digit c = true.
Proof.
  unfold decimal. pose proof (to_uint_not_nil n) as Hn.
  destruct (Nat.to_uint n); [contradiction|..]; cbn; eauto.
Qed.

Lemma parse_digits_decimal (n : nat) (rest : string) :
  no_leading_digit rest = true ->
  parse_digits (decimal n ++ rest) = Some (Z.of_nat n).
Proof.
  intros Hrest. destruct (decimal_head n) as (c & s & Hd & Hc).
  unfold parse_digits. rewrite Hd at 1. cbn [append].
  unfold is_digit in Hc. destruct (digit c); [|discriminate].
  unfold decimal. rewrite (digits_from_uint _ 0 rest Hrest).
  fold (Nat.of_uint (Nat.to_uint n)). now rewrite DecimalNat.Unsigned.of_to.
Qed.

Lemma parseInt_digit (c : ascii) (s : string) :
  is_digit c = true -> parseInt (String c s) = parse_digits (String c s).
Proof.
  destruct c as [[] [] [] [] [] [] [] []]; intros Hc;
    try (vm_compute in Hc; discriminate); reflexivity.
Qed.

Lemma parseInt_ws (ws s : string) :
  all_chars isWhiteSpace ws = true -> parseInt (ws ++ s) = parseInt s.
Proof. intros Hws. unfold parseInt. now rewrite trimStart_ws. Qed.

(** [parseInt] on what [String] prints, after white space and a sign, and
    before anything that does not go on with a digit. *)
Lemma parseInt_decimal (ws rest : string) (n : nat) :
  all_chars isWhiteSpace ws = true -> no_leading_digit rest = true ->
  parseInt (ws ++ decimal n ++ rest) = Some (Z.of_nat n) /\
  parseInt (ws ++ "+" ++ decimal n ++ rest) = Some (Z.of_nat n) /\
  parseInt (ws ++ "-" ++ decimal n ++ rest) = Some (- Z.of_nat n)%Z.
Proof.
  intros Hws Hrest. pose proof (parse_digits_decimal n rest Hrest) as Hd.
  rewrite (parseInt_ws ws (decimal n ++ rest)),
    (parseInt_ws ws ("+" ++ decimal n ++ rest)),
    (parseInt_ws ws ("-" ++ decimal n ++ rest)) by assumption.
  split; [|split].
  - destruct (decimal_head n) as (c & s & Hn & Hc).
    rewrite Hn in Hd |- *. cbn [append] in Hd |- *.
    now rewrite parseInt_digit.
  - change (parseInt ("+" ++ decimal n ++ rest))
      with (parse_digits (decimal n ++ rest)).
    exact Hd.
  - change (parseInt ("-" ++ decimal n ++ rest))
      with (option_map Z.opp (parse_digits (decimal n ++ rest))).
    now rewrite Hd.
Qed.

Lemma no_digit_trimStart (s : string) :
  all_chars (fun c => negb (is_digit c)) s = true ->
  all_chars (fun c => negb (is_digit c)) (trimStart s) = true.
Proof.
  induction s as [|c s IH]; cbn; [reflexivity|]. intros Hs.
  destruct (isWhiteSpace c); [|exact Hs].
  apply andb_true_iff in Hs. now apply IH.
Qed.

Lemma parse_digits_none (s : string) :
  all_chars (fun c => negb (is_digit c)) s = true -> parse_digits s = None.
Proof.
  destruct s as [|c s]; [reflexivity|]. cbn. unfold is_digit.
  destruct (digit c); [discriminate | reflexivity].
Qed.

Lemma parseInt_none (value : string) :
  all_chars (fun c => negb (is_digit c)) value = true -> parseInt value = None.
Proof.
  intros Hv. apply no_digit_trimStart in Hv. unfold parseInt.
  destruct (trimStart value) as [|c s]; [reflexivity|].
  pose proof (parse_digits_none (String c s) Hv) as Hc.
  cbn [all_chars] in Hv. apply andb_true_iff in Hv. destruct Hv as [_ Hs].
  pose proof (parse_digits_none s Hs) as Hs'.
  destruct c as [[] [] [] [] [] [] [] []]; try exact Hc; now rewrite Hs'.
Qed.

(** X18: a value without any decimal digit is ignored by the settings tab:
    the port of the settings and what is saved stay as they are. *)
Theorem onChange_ignores (value : string) (st : PluginState) :
  all_chars (fun c => negb (is_digit c)) value = true ->
  onChange value st = st.
Proof. intros Hv. unfold onChange. now rewrite (parseInt_none value Hv). Qed.

Lemma onChange_ignores_witness :
  onChange "port" {| settings := DEFAULT_SETTINGS; saved := None |}
  = {| settings := DEFAULT_SETTINGS; saved := None |}.
Proof. apply (onChange_ignores "port"). reflexivity. Defined.

(** X19: a value that starts, after white space and a sign, with the
    decimal digits of [n], and goes on with anything that is no digit, is
    accepted: the port becomes [n], or [-n] after a minus sign, and is saved;
    what follows the digits is dropped, and the range of the port is not
    checked.  Loading the settings again gives that port. *)
Theorem onChange_accepts (ws rest : string) (n : nat) (st : PluginState) :
  all_chars isWhiteSpace ws = true -> no_leading_digit rest = true ->
  (Z.of_nat n <= 2 ^ 53)%Z ->
  onChange (ws ++ decimal n ++ rest) st = port_saved (Z.of_nat n) /\
  onChange (ws ++ "+" ++ decimal n ++ rest) st = port_saved (Z.of_nat n) /\
  onChange (ws ++ "-" ++ decimal n ++ rest) st = port_saved (- Z.of_nat n) /\
  loadSettings (port_saved (Z.of_nat n)) = port_saved (Z.of_nat n).
Proof.
  intros Hws Hrest _.
  destruct (parseInt_decimal ws rest n Hws Hrest) as (H1 & H2 & H3).
  unfold onChange. rewrite H1, H2, H3. repeat split.
Qed.

Lemma onChange_accepts_witness :
  onChange (" " ++ decimal 80 ++ "abc") {| settings := DEFAULT_SETTINGS; saved := None |}
  = port_saved 80 /\
  onChange (" " ++ "+" ++ decimal 80 ++ "abc") {| settings := DEFAULT_SETTINGS; saved := None |}
  = port_saved 80 /\
  onChange (" " ++ "-" ++ decimal 80 ++ "abc") {| settings := DEFAULT_SETTINGS; saved := None |}
  = port_saved (-80) /\
  loadSettings (port_saved 80) = port_saved 80.
Proof.
  apply (onChange_accepts " " "abc" 80 {| settings := DEFAULT_SETTINGS; saved := None |}).
  - reflexivity.
  - reflexivity.
  - vm_compute. discriminate.
Defined.

(** X20: the value that the settings tab shows, [String] of the port, is
    accepted as that port: typing it again saves the settings as they are. *)
Theorem shown_value_accepted (st : PluginState) :
  (Z.abs (serverPort (settings st)) <= 2 ^ 53)%Z ->
  onChange (js_String (serverPort (settings st))) st = saveSettings st.
Proof.
  intros _. destruct st as [[p] sv]. cbn [settings serverPort].
  unfold saveSettings. cbn [settings serverPort saved].
  assert (Hp : parseInt (js_String p) = Some p).
  { destruct p as [|q|q]; unfold js_String.
    - destruct (parseInt_decimal "" "" (Z.to_nat 0) eq_refl eq_refl) as (H1 & _).
      cbn [append] in H1. rewrite append_nil_r in H1. exact H1.
    - destruct (parseInt_decimal "" "" (Z.to_nat (Zpos q)) eq_refl eq_refl) as (H1 & _).
      cbn [append] in H1. rewrite append_nil_r in H1. rewrite H1.
      f_equal. apply Z2Nat.id. lia.
    - destruct (parseInt_decimal "" "" (Pos.to_nat q) eq_refl eq_refl) as (_ & _ & H3).
      cbn [append] in H3. rewrite append_nil_r in H3.
      change ("-" ++ decimal (Pos.to_nat q)) with (String "-" (decimal (Pos.to_nat q))).
      rewrite H3. f_equal. lia. }
  unfold onChange. rewrite Hp. reflexivity.
Qed.

Lemma shown_value_accepted_witness :
  onChange (js_String (serverPort DEFAULT_SETTINGS))
    {| settings := DEFAULT_SETTINGS; saved := None |}
  = saveSettings {| settings := DEFAULT_SETTINGS; saved := None |}.
Proof.
  apply (shown_value_accepted {| settings := DEFAULT_SETTINGS; saved := None |}).
  vm_compute. discriminate.
Defined.

(** ** White space in front of the append keyword *)

Lemma ws_not_keyword (c : ascii) : isWhiteSpace c = true -> ci_eqb c "a" = false.
Proof.
  destruct c as [[] [] [] [] [] [] [] []]; intros Hc;
    try (vm_compute in Hc; discriminate); reflexivity.
Qed.

Lemma trim_ws_l (w s : string) :
  all_chars isWhiteSpace w = true -> trim (w ++ s) = trim s.
Proof.
  intros Hw. unfold trim. destruct (trimEnd s) as [|c r] eqn:E.
  - assert (Hall : trimEnd (w ++ s) = "").
    { apply trimEnd_empty. rewrite all_chars_app, Hw. now apply trimEnd_empty. }
    now rewrite Hall.
  - rewrite trimEnd_app by (rewrite E; discriminate).
    rewrite E. now apply trimStart_ws.
Qed.

(** X21: white space in front of the append keyword: the pattern is
    anchored at the start of the text as it came, so the text is no command,
    whatever follows the keyword. *)
Theorem append_after_white_space (ws kw rest : string) :
  ws <> "" -> all_chars isWhiteSpace ws = true ->
  toLowerCase kw = "append to " ->
  parse (ws ++ kw ++ rest) = Unknown (ws ++ kw ++ rest).
Proof.
  intros Hne Hws Hkw.
  assert (Hm : match_append (ws ++ kw ++ rest) = None).
  { destruct ws as [|c ws]; [contradiction|].
    cbn in Hws. apply andb_true_iff in Hws. destruct Hws as [Hc _].
    unfold match_append. cbn [append lit]. now rewrite (ws_not_keyword c Hc). }
  destruct (lower_keyword_head kw rest "a" "ppend to " Hkw eq_refl) as (tl & Hl).
  unfold parse.
  rewrite toLowerCase_app, trim_ws_l, Hl, Hm by (now rewrite all_ws_lower).
  change (startsWith (String "a" tl) "create note ") with false. cbv iota.
  replace (if startsWith (String "a" tl) "append to " then None else None)
    with (@None (string * string)) by (now destruct (startsWith _ _)).
  reflexivity.
Qed.

Lemma append_after_white_space_witness :
  parse (" " ++ "append to " ++ "Foo: hello") = Unknown (" " ++ "append to " ++ "Foo: hello").
Proof.
  apply (append_after_white_space " " "append to " "Foo: hello").
  - discriminate.
  - reflexivity.
  - reflexivity.
Defined.
